(** * Scan-to-status-transition workflow of the NFC pilgrim check-in app

    A shallow embedding of
      - [src/types/index.ts]               (data model),
      - [src/services/pocketbase/index.ts] (Record Store client),
      - [src/services/nfc/index.ts]        (Card Reader adapter),
      - [src/store/index.ts]               (zustand store: session, scan,
                                            lookup, validate, persist),
      - [src/hooks/usePilgrims.ts]         (updaters of the query cache),
      - [src/localization]                 (Arabic-Indic numerals),
    followed by the properties of the scan cycle and of the session
    counters, of the card identifiers, of the adapter's failure kinds and
    of the list of pilgrims.

    The TypeScript code is asynchronous: every action is a sequence of
    synchronous blocks separated by [await]s on the NFC manager or on the
    PocketBase client.  Actions are written once, as terms of a small free
    monad [Async] (state access, [throw], [await] of an external call),
    and given two semantics: [run] answers every external call at once
    from an oracle (one action, run to completion), and [step] moves the
    pending actions of the event loop one at a time, in any order.

    Logging ([console.*]) is left out throughout. *)

From Stdlib Require Import String Ascii List ZArith Bool Lia.
Import ListNotations.
Local Open Scope string_scope.
Local Open Scope Z_scope.

(* ================================================================== *)
(** * JavaScript values used by the code *)
(* ================================================================== *)

Module Js.

(** [o || d] on a possibly-undefined string: [undefined] and [''] are
    falsy. *)
Definition or_else (o : option string) (d : string) : string :=
  match o with
  | Some s => if (s =? "")%string then d else s
  | None => d
  end.

(** [s.includes(needle)]. *)
Fixpoint includes (needle s : string) : bool :=
  String.prefix needle s
  || match s with
     | EmptyString => false
     | String _ s' => includes needle s'
     end.

(** Truthiness of a number that may be [undefined]. *)
Definition truthy_number (o : option Z) : bool :=
  match o with
  | Some z => negb (z =? 0)
  | None => false
  end.

(** The double quote character, for template strings that contain it. *)
Definition dquote : string := String (ascii_of_nat 34) EmptyString.

End Js.

(** A thrown (or rejected-with) value.  The code only ever reads
    [error.message], [error.status] and [error.toString()] from what it
    catches, and builds [{code, message, data}] objects in [handleError];
    [data] is never read again and is left out. *)
Record Thrown : Type := mkThrown {
  message : option string;
  status : option Z;
  code : option Z;
  toString : string
}.

(** [new Error(msg)]. *)
Definition new_Error (msg : string) : Thrown :=
  {| message := Some msg;
     status := None;
     code := None;
     toString := if (msg =? "")%string then "Error" else "Error: " ++ msg |}.

(* ================================================================== *)
(** * Data model ([src/types/index.ts]) *)
(* ================================================================== *)

(** [Pilgrim.status : 'onboard' | 'offboard']. *)
Inductive Status : Type := onboard | offboard.

(** [AppState.scanningMode : 'idle' | 'onboard' | 'offboard']: the two
    statuses, plus [idle]. *)
Inductive ScanningMode : Type :=
| idle
| mode (s : Status).

Coercion mode : Status >-> ScanningMode.

Inductive Sex : Type := male | female.

(** The record's [status] is [pilgrim_status] here: [status] names the
    HTTP status of a thrown value. *)
Record Pilgrim : Type := mkPilgrim {
  id : string;
  full_name : string;
  passport_number : string;
  nfc_card_id : string;
  seat_number : Z;
  pilgrim_status : Status;
  phone : string;
  photo : string;
  date_of_birth : string;
  sex : Sex;
  nationality : string;
  created : string;
  updated : string
}.

Record NFCScanResult : Type := mkScanResult {
  success : bool;
  cardId : option string;
  error : option string;
  timestamp : Z
}.

(** [AppState.nfc]. *)
Record NFCManager : Type := mkNFCManager {
  nfc_isEnabled : bool;
  nfc_isScanning : bool;
  nfc_lastScanResult : option NFCScanResult
}.

(** Counters are JavaScript numbers; they start at 0 and move by [++], so
    they stay integers, exact far beyond any session length. *)
Record SessionStats : Type := mkStats {
  totalScanned : Z;
  successfulScans : Z;
  failedScans : Z;
  onboardCount : Z;
  offboardCount : Z;
  startTime : option Z;
  endTime : option Z
}.

(** The state's [error] is [app_error] here: [error] names the field of a
    scan result. *)
Record AppState : Type := mkAppState {
  pilgrims : list Pilgrim;
  isLoading : bool;
  app_error : option string;
  nfc : NFCManager;
  selectedPilgrim : option Pilgrim;
  scanningMode : ScanningMode;
  sessionStats : SessionStats
}.

(** [AppError]: the closed list of error codes. *)
Inductive AppError : Type :=
| NETWORK_ERROR
| NFC_NOT_SUPPORTED
| NFC_DISABLED
| SCAN_TIMEOUT
| PILGRIM_NOT_FOUND
| ALREADY_ONBOARD
| ALREADY_OFFBOARD
| INVALID_CARD
| SERVER_ERROR
| UNKNOWN_ERROR.

(** The string each code is at run time. *)
Definition AppError_string (e : AppError) : string :=
  match e with
  | NETWORK_ERROR => "NETWORK_ERROR"
  | NFC_NOT_SUPPORTED => "NFC_NOT_SUPPORTED"
  | NFC_DISABLED => "NFC_DISABLED"
  | SCAN_TIMEOUT => "SCAN_TIMEOUT"
  | PILGRIM_NOT_FOUND => "PILGRIM_NOT_FOUND"
  | ALREADY_ONBOARD => "ALREADY_ONBOARD"
  | ALREADY_OFFBOARD => "ALREADY_OFFBOARD"
  | INVALID_CARD => "INVALID_CARD"
  | SERVER_ERROR => "SERVER_ERROR"
  | UNKNOWN_ERROR => "UNKNOWN_ERROR"
  end.

Definition Status_eqb (a b : Status) : bool :=
  match a, b with
  | onboard, onboard | offboard, offboard => true
  | _, _ => false
  end.

Definition ScanningMode_eqb (a b : ScanningMode) : bool :=
  match a, b with
  | idle, idle => true
  | mode x, mode y => Status_eqb x y
  | _, _ => false
  end.

(* ------------------------------------------------------------------ *)
(** ** Field updates (immer drafts: [state.field = v]) *)

Definition set_totalScanned (v : Z) (t : SessionStats) : SessionStats :=
  mkStats v (successfulScans t) (failedScans t) (onboardCount t)
          (offboardCount t) (startTime t) (endTime t).
Definition set_successfulScans (v : Z) (t : SessionStats) : SessionStats :=
  mkStats (totalScanned t) v (failedScans t) (onboardCount t)
          (offboardCount t) (startTime t) (endTime t).
Definition set_failedScans (v : Z) (t : SessionStats) : SessionStats :=
  mkStats (totalScanned t) (successfulScans t) v (onboardCount t)
          (offboardCount t) (startTime t) (endTime t).
Definition set_onboardCount (v : Z) (t : SessionStats) : SessionStats :=
  mkStats (totalScanned t) (successfulScans t) (failedScans t) v
          (offboardCount t) (startTime t) (endTime t).
Definition set_offboardCount (v : Z) (t : SessionStats) : SessionStats :=
  mkStats (totalScanned t) (successfulScans t) (failedScans t)
          (onboardCount t) v (startTime t) (endTime t).
Definition set_endTime (v : option Z) (t : SessionStats) : SessionStats :=
  mkStats (totalScanned t) (successfulScans t) (failedScans t)
          (onboardCount t) (offboardCount t) (startTime t) v.

Definition set_isEnabled (v : bool) (n : NFCManager) : NFCManager :=
  mkNFCManager v (nfc_isScanning n) (nfc_lastScanResult n).
Definition set_isScanning (v : bool) (n : NFCManager) : NFCManager :=
  mkNFCManager (nfc_isEnabled n) v (nfc_lastScanResult n).
Definition set_lastScanResult (v : option NFCScanResult) (n : NFCManager)
  : NFCManager :=
  mkNFCManager (nfc_isEnabled n) (nfc_isScanning n) v.

Definition set_pilgrims (v : list Pilgrim) (a : AppState) : AppState :=
  mkAppState v (isLoading a) (app_error a) (nfc a) (selectedPilgrim a)
             (scanningMode a) (sessionStats a).
Definition set_error (v : option string) (a : AppState) : AppState :=
  mkAppState (pilgrims a) (isLoading a) v (nfc a) (selectedPilgrim a)
             (scanningMode a) (sessionStats a).
Definition set_nfc (v : NFCManager) (a : AppState) : AppState :=
  mkAppState (pilgrims a) (isLoading a) (app_error a) v (selectedPilgrim a)
             (scanningMode a) (sessionStats a).
Definition set_selectedPilgrim (v : option Pilgrim) (a : AppState)
  : AppState :=
  mkAppState (pilgrims a) (isLoading a) (app_error a) (nfc a) v
             (scanningMode a) (sessionStats a).
Definition set_scanningMode (v : ScanningMode) (a : AppState) : AppState :=
  mkAppState (pilgrims a) (isLoading a) (app_error a) (nfc a)
             (selectedPilgrim a) v (sessionStats a).
Definition set_sessionStats (v : SessionStats) (a : AppState) : AppState :=
  mkAppState (pilgrims a) (isLoading a) (app_error a) (nfc a)
             (selectedPilgrim a) (scanningMode a) v.

(* ================================================================== *)
(** * The world outside the store *)
(* ================================================================== *)

(** [Platform.OS]. *)
Inductive Platform : Type := android | ios | web.

Inductive NfcTech : Type := Ndef | NfcA | NfcB | NfcF | NfcV.

(** What [NfcManager.getTag()] resolves to.  The code hands it to
    [extractCardId] and reads nothing else from it. *)
Record TagInfo : Type := mkTagInfo {
  tag_id : option (list Z);
  tag_uid : option (list Z);
  tag_serialNumber : option string;
  tag_type : option string;
  tag_maxSize : option Z
}.

(** How [Promise.race([requestTechnology(..), createScanTimeout()])]
    settles when it does not reject on the manager's side: the request
    resolved first (with a technology, or with nothing), or the timer
    fired first. *)
Inductive Race : Type :=
| Resolved (tag : option NfcTech)
| TimerFired.

(** External calls the code awaits: the NFC manager of
    [react-native-nfc-manager] and the PocketBase client. *)
Inductive Call : Type :=
| NfcManager_isSupported
| NfcManager_start
| NfcManager_isEnabled
| NfcManager_requestTechnology (techRequest : list NfcTech) (timeoutMs : Z)
| NfcManager_getTag
| NfcManager_cancelTechnologyRequest
| Tag_identifier (tagInfo : TagInfo)
| Pb_getFirstListItem (filter : string)
| Pb_update (recordId : string) (newStatus : ScanningMode).

(** What each call resolves to when it does not reject. *)
Definition Reply (c : Call) : Type :=
  match c with
  | NfcManager_isSupported => bool
  | NfcManager_start => unit
  | NfcManager_isEnabled => bool
  | NfcManager_requestTechnology _ _ => Race
  | NfcManager_getTag => TagInfo
  | NfcManager_cancelTechnologyRequest => unit
  | Tag_identifier _ => option string
  | Pb_getFirstListItem _ => Pilgrim
  | Pb_update _ _ => Pilgrim
  end.

(** [NFCService]'s own fields, and whether the conditional [require] of the
    NFC manager at module load succeeded ([NfcManager] is non-null). *)
Record NFCServiceState : Type := mkNFCService {
  NfcManager_loaded : bool;
  isInitialized : bool;
  scanTimeout : Z
}.

(** Everything the code reads or writes: the zustand store, the NFC service
    singleton, [Platform.OS] and the clock [Date.now()] reads. *)
Record Sys : Type := mkSys {
  store : AppState;
  service : NFCServiceState;
  Platform_OS : Platform;
  clock : Z
}.

Definition set_store (v : AppState) (w : Sys) : Sys :=
  mkSys v (service w) (Platform_OS w) (clock w).
Definition set_service (v : NFCServiceState) (w : Sys) : Sys :=
  mkSys (store w) v (Platform_OS w) (clock w).
Definition set_clock (v : Z) (w : Sys) : Sys :=
  mkSys (store w) (service w) (Platform_OS w) v.

(* ================================================================== *)
(** * Asynchronous programs *)
(* ================================================================== *)

(** An [async] function body: it returns, throws, reads or writes the
    state, or awaits an external call and goes on with how the call
    settled ([inl]: rejected, [inr]: resolved). *)
Inductive Async (A : Type) : Type :=
| Return (a : A)
| Throw (e : Thrown)
| GetState (k : Sys -> Async A)
| SetState (f : Sys -> Sys) (k : Async A)
| Await (c : Call) (k : Thrown + Reply c -> Async A).

Arguments Return {A} a.
Arguments Throw {A} e.
Arguments GetState {A} k.
Arguments SetState {A} f k.
Arguments Await {A} c k.

Fixpoint bind {A B : Type} (m : Async A) (f : A -> Async B) : Async B :=
  match m with
  | Return a => f a
  | Throw e => Throw e
  | GetState k => GetState (fun w => bind (k w) f)
  | SetState g k => SetState g (bind k f)
  | Await c k => Await c (fun r => bind (k r) f)
  end.

(** [try { m } catch (error) { handler error }]. *)
Fixpoint try_catch {A : Type} (m : Async A) (handler : Thrown -> Async A)
  : Async A :=
  match m with
  | Return a => Return a
  | Throw e => handler e
  | GetState k => GetState (fun w => try_catch (k w) handler)
  | SetState g k => SetState g (try_catch k handler)
  | Await c k => Await c (fun r => try_catch (k r) handler)
  end.

(** [try { m } finally { fin }]: [fin] runs on both exits; the outcome of
    [m] stands unless [fin] itself throws. *)
Fixpoint try_finally {A : Type} (m : Async A) (fin : Async unit) : Async A :=
  match m with
  | Return a => bind fin (fun _ => Return a)
  | Throw e => bind fin (fun _ => Throw e)
  | GetState k => GetState (fun w => try_finally (k w) fin)
  | SetState g k => SetState g (try_finally k fin)
  | Await c k => Await c (fun r => try_finally (k r) fin)
  end.

Declare Scope async_scope.
Delimit Scope async_scope with async.
Bind Scope async_scope with Async.

Notation "x <- m ;; k" := (bind m (fun x => k))
  (at level 61, m at next level, right associativity) : async_scope.
Notation "m ;; k" := (bind m (fun _ => k))
  (at level 61, right associativity) : async_scope.

Local Open Scope async_scope.

(** [await call]: a rejection is thrown into the awaiting function. *)
Definition await (c : Call) : Async (Reply c) :=
  Await c (fun r =>
    match r with
    | inl e => Throw e
    | inr v => Return v
    end).

Definition get : Async Sys := GetState (fun w => Return w).

Definition modify (f : Sys -> Sys) : Async unit := SetState f (Return tt).

(** [Date.now()].  The clock stands still while an action runs; [tick]
    (below) moves it between actions. *)
Definition Date_now : Async Z := GetState (fun w => Return (clock w)).

(* ------------------------------------------------------------------ *)
(** ** Running one action to completion *)

(** How a promise settles. *)
Inductive Settled (A : Type) : Type :=
| Fulfilled (a : A)
| Rejected (e : Thrown).

Arguments Fulfilled {A} a.
Arguments Rejected {A} e.

(** The environment: how the external call [c] settles after the calls
    [history] made so far. *)
Definition Oracle : Type :=
  forall (history : list Call) (c : Call), Thrown + Reply c.

Record Outcome (A : Type) : Type := mkOutcome {
  result : Settled A;
  final : Sys;
  calls : list Call
}.

Arguments mkOutcome {A} result final calls.
Arguments result {A} o.
Arguments final {A} o.
Arguments calls {A} o.

(** [run env m w log]: run [m] from state [w], the calls [log] having been
    made before; no other action runs in between. *)
Fixpoint run {A : Type} (env : Oracle) (m : Async A) (w : Sys)
    (log : list Call) : Outcome A :=
  match m with
  | Return a => mkOutcome (Fulfilled a) w log
  | Throw e => mkOutcome (Rejected e) w log
  | GetState k => run env (k w) w log
  | SetState f k => run env k (f w) log
  | Await c k => run env (k (env log c)) w (log ++ [c])
  end.

(* ================================================================== *)
(** * Record Store client ([src/services/pocketbase/index.ts]) *)
(* ================================================================== *)

Module PocketBaseService.

(** [error?.status === 404]. *)
Definition isNotFoundError (error : Thrown) : bool :=
  match status error with
  | Some s => s =? 404
  | None => false
  end.

(** Normalises what the client rejected with into a [PocketBaseError]
    [{code, message, data}]. *)
Definition handleError (error : Thrown) : Thrown :=
  if Js.truthy_number (status error) then
    {| message := Some (Js.or_else (message error) "An error occurred");
       status := None;
       code := status error;
       toString := "[object Object]" |}
  else
    {| message := Some (Js.or_else (message error) "Network error occurred");
       status := None;
       code := Some 0;
       toString := "[object Object]" |}.

(** The filter [`nfc_card_id="${nfcCardId}"`]. *)
Definition nfc_filter (nfcCardId : string) : string :=
  "nfc_card_id=" ++ Js.dquote ++ nfcCardId ++ Js.dquote.

Definition getPilgrimByNfcId (nfcCardId : string) : Async (option Pilgrim) :=
  try_catch
    (response <- await (Pb_getFirstListItem (nfc_filter nfcCardId)) ;;
     Return (Some response))
    (fun error =>
       if isNotFoundError error then Return None
       else Throw (handleError error)).

Definition updatePilgrimStatus (recordId : string) (newStatus : ScanningMode)
  : Async Pilgrim :=
  try_catch
    (pilgrim <- await (Pb_update recordId newStatus) ;;
     Return pilgrim)
    (fun error => Throw (handleError error)).

End PocketBaseService.

(* ================================================================== *)
(** * Card Reader adapter ([src/services/nfc/index.ts]) *)
(* ================================================================== *)

Module NFCService.

Definition set_isInitialized (v : bool) (n : NFCServiceState)
  : NFCServiceState :=
  mkNFCService (NfcManager_loaded n) v (scanTimeout n).

Definition set_scanTimeout (v : Z) (n : NFCServiceState) : NFCServiceState :=
  mkNFCService (NfcManager_loaded n) (isInitialized n) v.

Definition this : Async NFCServiceState :=
  GetState (fun w => Return (service w)).

(** [error?.message || error?.toString() || '']. *)
Definition errorMessage_of (error : Thrown) : string :=
  Js.or_else (message error) (Js.or_else (Some (toString error)) "").

(** The first code the error's text contains, in the order the checks are
    written. *)
Definition mapErrorToMessage (error : Thrown) : AppError :=
  let errorMessage := errorMessage_of error in
  if Js.includes "NFC_NOT_SUPPORTED" errorMessage then NFC_NOT_SUPPORTED
  else if Js.includes "NFC_DISABLED" errorMessage then NFC_DISABLED
  else if Js.includes "SCAN_TIMEOUT" errorMessage then SCAN_TIMEOUT
  else if Js.includes "INVALID_CARD" errorMessage then INVALID_CARD
  else if Js.includes "cancelled" errorMessage
          || Js.includes "canceled" errorMessage then SCAN_TIMEOUT
  else UNKNOWN_ERROR.

(** [handleNFCError] only logs. *)
Definition initialize : Async bool :=
  try_catch
    (self <- this ;;
     if negb (NfcManager_loaded self) then
       Throw (new_Error "NFC_NOT_AVAILABLE_IN_EXPO_GO")
     else
       supported <- await NfcManager_isSupported ;;
       if negb supported then Throw (new_Error "NFC_NOT_SUPPORTED")
       else
         await NfcManager_start ;;
         modify (fun w => set_service (set_isInitialized true (service w)) w) ;;
         Return true)
    (fun _ => Return false).

Definition isEnabled : Async bool :=
  try_catch
    (self <- this ;;
     if negb (NfcManager_loaded self) then Return false
     else
       (if negb (isInitialized self) then
          _ <- initialize ;; Return tt
        else Return tt) ;;
       await NfcManager_isEnabled)
    (fun _ => Return false).

Definition isSupported : Async bool :=
  try_catch
    (self <- this ;;
     if negb (NfcManager_loaded self) then Return false
     else await NfcManager_isSupported)
    (fun _ => Return false).

Definition stopScanning : Async unit :=
  try_catch
    (self <- this ;;
     if negb (NfcManager_loaded self) then Return tt
     else await NfcManager_cancelTechnologyRequest)
    (fun _ => Return tt).

(** [extractCardId]: how the identifier is read off the tag (tag id, uid,
    serial number, NDEF payload, type and size) is left to the
    environment as [Tag_identifier]; the [try]/[catch] around it, which
    turns any failure into [null], is the code's. *)
Definition extractCardId (tagInfo : TagInfo) : Async (option string) :=
  try_catch (await (Tag_identifier tagInfo)) (fun _ => Return None).

(** The rejection [createScanTimeout] produces when its timer fires. *)
Definition createScanTimeout : Thrown := new_Error "SCAN_TIMEOUT".

Definition startScanning : Async NFCScanResult :=
  try_finally
    (try_catch
       (self <- this ;;
        if negb (NfcManager_loaded self) then
          Throw (new_Error "NFC_NOT_AVAILABLE_IN_EXPO_GO")
        else
          (if negb (isInitialized self) then
             initialized <- initialize ;;
             if negb initialized then Throw (new_Error "NFC_NOT_SUPPORTED")
             else Return tt
           else Return tt) ;;
          enabled <- isEnabled ;;
          if negb enabled then Throw (new_Error "NFC_DISABLED")
          else
            w <- get ;;
            let techRequest :=
              match Platform_OS w with
              | android => [Ndef; NfcA; NfcB; NfcF; NfcV]
              | _ => [Ndef]
              end in
            raced <- await (NfcManager_requestTechnology
                              techRequest (scanTimeout (service w))) ;;
            match raced with
            | TimerFired => Throw createScanTimeout
            | Resolved None => Throw (new_Error "SCAN_TIMEOUT")
            | Resolved (Some _) =>
                tagInfo <- await NfcManager_getTag ;;
                extracted <- extractCardId tagInfo ;;
                match extracted with
                | None => Throw (new_Error "INVALID_CARD")
                | Some card =>
                    if (card =? "")%string then
                      Throw (new_Error "INVALID_CARD")
                    else
                      now <- Date_now ;;
                      Return {| success := true;
                                cardId := Some card;
                                error := None;
                                timestamp := now |}
                end
            end)
       (fun error =>
          now <- Date_now ;;
          Return {| success := false;
                    cardId := None;
                    error := Some (AppError_string (mapErrorToMessage error));
                    timestamp := now |}))
    stopScanning.

Definition cleanup : Async unit :=
  try_catch
    (stopScanning ;;
     self <- this ;;
     if isInitialized self then
       modify (fun w => set_service (set_isInitialized false (service w)) w)
     else Return tt)
    (fun _ => Return tt).

Definition setScanTimeout (timeout : Z) : Async unit :=
  modify (fun w => set_service (set_scanTimeout timeout (service w)) w).

Definition getScanTimeout : Async Z :=
  self <- this ;; Return (scanTimeout self).

End NFCService.

(* ================================================================== *)
(** * The store ([src/store/index.ts]) *)
(* ================================================================== *)

Module Store.

Definition initialState : AppState :=
  {| pilgrims := [];
     isLoading := false;
     app_error := None;
     nfc := {| nfc_isEnabled := false;
               nfc_isScanning := false;
               nfc_lastScanResult := None |};
     selectedPilgrim := None;
     scanningMode := idle;
     sessionStats := {| totalScanned := 0;
                        successfulScans := 0;
                        failedScans := 0;
                        onboardCount := 0;
                        offboardCount := 0;
                        startTime := None;
                        endTime := None |} |}.

(** zustand's [set((state) => { ... })] with the immer middleware: the
    producer is applied to the state current when [set] runs. *)
Definition set (producer : AppState -> AppState) : Async unit :=
  modify (fun w => set_store (producer (store w)) w).

(** zustand's [get()]. *)
Definition get : Async AppState := GetState (fun w => Return (store w)).

(** [array.findIndex(f)]; [None] stands for [-1]. *)
Fixpoint findIndex {A : Type} (f : A -> bool) (l : list A) : option nat :=
  match l with
  | [] => None
  | x :: l' =>
      if f x then Some O
      else match findIndex f l' with
           | Some i => Some (S i)
           | None => None
           end
  end.

(** [array[index] = v], for the in-range indices [findIndex] returns. *)
Fixpoint assign_at {A : Type} (index : nat) (v : A) (l : list A) : list A :=
  match l, index with
  | [], _ => []
  | _ :: l', O => v :: l'
  | x :: l', S i => x :: assign_at i v l'
  end.

(** [failedScans++; totalScanned++], as each of the three [catch] blocks
    below does. *)
Definition incr_failed (t : SessionStats) : SessionStats :=
  set_totalScanned (totalScanned t + 1)
    (set_failedScans (failedScans t + 1) t).

(** [errorMap] of [mapErrorMessage], own keys only. *)
Definition errorMap : list (string * string) :=
  [ ("PILGRIM_NOT_FOUND", "لم يتم العثور على الحاج");
    ("ALREADY_ONBOARD", "الحاج على متن الحافلة بالفعل");
    ("ALREADY_OFFBOARD", "الحاج خارج الحافلة بالفعل");
    ("NFC_NOT_SUPPORTED", "الجهاز لا يدعم NFC");
    ("NFC_DISABLED", "NFC غير مفعل");
    ("SCAN_TIMEOUT", "انتهت مهلة المسح");
    ("INVALID_CARD", "رقاقة غير صالحة");
    ("NETWORK_ERROR", "خطأ في الاتصال بالشبكة");
    ("SERVER_ERROR", "خطأ في الخادم") ].

Fixpoint lookup (key : string) (m : list (string * string)) : option string :=
  match m with
  | [] => None
  | (k, v) :: m' => if (k =? key)%string then Some v else lookup key m'
  end.

(** [errorMap[errorCode] || 'خطأ غير معروف'].  An [undefined] code finds
    nothing.  (Names inherited from [Object.prototype], which a plain
    object also answers to, are not modelled; no code path below produces
    them.) *)
Definition mapErrorMessage (errorCode : option string) : string :=
  match errorCode with
  | Some c => Js.or_else (lookup c errorMap) "خطأ غير معروف"
  | None => "خطأ غير معروف"
  end.

(** [status] is declared ['onboard' | 'offboard']; [processScan] passes
    it [scanningMode as 'onboard' | 'offboard'], a cast that checks
    nothing at run time, so the value received ranges over
    [ScanningMode]. *)
Definition updatePilgrimStatus (pilgrimId : string) (newStatus : ScanningMode)
  : Async Pilgrim :=
  try_catch
    (updatedPilgrim <-
       PocketBaseService.updatePilgrimStatus pilgrimId newStatus ;;
     set (fun state =>
       let state :=
         match findIndex (fun p => (id p =? pilgrimId)%string)
                         (pilgrims state) with
         | Some index =>
             set_pilgrims (assign_at index updatedPilgrim (pilgrims state))
                          state
         | None => state
         end in
       let stats := sessionStats state in
       let stats :=
         if ScanningMode_eqb newStatus onboard then
           set_onboardCount (onboardCount stats + 1) stats
         else
           set_offboardCount (offboardCount stats + 1) stats in
       let stats := set_successfulScans (successfulScans stats + 1) stats in
       let stats := set_totalScanned (totalScanned stats + 1) stats in
       set_sessionStats stats state) ;;
     Return updatedPilgrim)
    (fun error =>
       set (fun state =>
         set_sessionStats (incr_failed (sessionStats state))
           (set_error
              (Some (Js.or_else (message error)
                                "Failed to update pilgrim status"))
              state)) ;;
       Throw error).

Definition processScan (scannedCardId : string) : Async unit :=
  try_catch
    (found <- PocketBaseService.getPilgrimByNfcId scannedCardId ;;
     match found with
     | None => Throw (new_Error "PILGRIM_NOT_FOUND")
     | Some pilgrim =>
         state <- get ;;
         let newStatus := scanningMode state in
         if ScanningMode_eqb newStatus onboard
            && Status_eqb (pilgrim_status pilgrim) onboard then
           Throw (new_Error "ALREADY_ONBOARD")
         else if ScanningMode_eqb newStatus offboard
                 && Status_eqb (pilgrim_status pilgrim) offboard then
           Throw (new_Error "ALREADY_OFFBOARD")
         else
           _ <- updatePilgrimStatus (id pilgrim) newStatus ;;
           set (fun state => set_selectedPilgrim (Some pilgrim) state)
     end)
    (fun error =>
       let errorMessage := mapErrorMessage (message error) in
       set (fun state =>
         set_sessionStats (incr_failed (sessionStats state))
           (set_error (Some errorMessage) state)) ;;
       Throw error).

Definition startScanning (requested : Status) : Async unit :=
  set (fun state =>
    set_error None
      (set_nfc (set_isScanning true (nfc state))
         (set_scanningMode requested state))) ;;
  try_catch
    (scanResult <- NFCService.startScanning ;;
     set (fun state =>
       set_nfc (set_isScanning false
                  (set_lastScanResult (Some scanResult) (nfc state)))
               state) ;;
     match success scanResult, cardId scanResult with
     | true, Some card =>
         if (card =? "")%string then
           Throw (new_Error (Js.or_else (error scanResult) "Scan failed"))
         else processScan card
     | _, _ =>
         Throw (new_Error (Js.or_else (error scanResult) "Scan failed"))
     end)
    (fun error =>
       set (fun state =>
         set_sessionStats (incr_failed (sessionStats state))
           (set_error (Some (Js.or_else (message error) "Scanning failed"))
              (set_nfc (set_isScanning false (nfc state)) state)))).

Definition stopScanning : Async unit :=
  NFCService.stopScanning ;;
  set (fun state =>
    set_scanningMode idle
      (set_nfc (set_isScanning false (nfc state)) state)).

Definition fresh_stats (start : option Z) : SessionStats :=
  {| totalScanned := 0;
     successfulScans := 0;
     failedScans := 0;
     onboardCount := 0;
     offboardCount := 0;
     startTime := start;
     endTime := None |}.

Definition startSession (requested : Status) : Async unit :=
  now <- Date_now ;;
  set (fun state =>
    set_sessionStats (fresh_stats (Some now))
      (set_scanningMode requested state)).

Definition endSession : Async unit :=
  now <- Date_now ;;
  set (fun state =>
    set_nfc (set_isScanning false (nfc state))
      (set_sessionStats (set_endTime (Some now) (sessionStats state))
         (set_scanningMode idle state))).

Definition resetSession : Async unit :=
  set (fun state =>
    set_selectedPilgrim None
      (set_nfc (set_isScanning false (nfc state))
         (set_scanningMode idle
            (set_sessionStats (fresh_stats None) state)))).

(** [Partial<SessionStats>]: the fields an update names. *)
Record PartialStats : Type := mkPartialStats {
  p_totalScanned : option Z;
  p_successfulScans : option Z;
  p_failedScans : option Z;
  p_onboardCount : option Z;
  p_offboardCount : option Z;
  p_startTime : option Z;
  p_endTime : option Z
}.

Definition assign {A : Type} (given : option A) (current : A) : A :=
  match given with
  | Some v => v
  | None => current
  end.

(** [Object.assign(state.sessionStats, stats)], for updates whose fields
    are numbers. *)
Definition updateSessionStats (stats : PartialStats) : Async unit :=
  set (fun state =>
    let t := sessionStats state in
    set_sessionStats
      {| totalScanned := assign (p_totalScanned stats) (totalScanned t);
         successfulScans := assign (p_successfulScans stats) (successfulScans t);
         failedScans := assign (p_failedScans stats) (failedScans t);
         onboardCount := assign (p_onboardCount stats) (onboardCount t);
         offboardCount := assign (p_offboardCount stats) (offboardCount t);
         startTime := match p_startTime stats with
                      | Some v => Some v
                      | None => startTime t
                      end;
         endTime := match p_endTime stats with
                    | Some v => Some v
                    | None => endTime t
                    end |}
      state).

Definition initializeNFC : Async bool :=
  try_catch
    (initialized <- NFCService.initialize ;;
     enabled <- NFCService.isEnabled ;;
     set (fun state => set_nfc (set_isEnabled enabled (nfc state)) state) ;;
     Return (initialized && enabled))
    (fun _ =>
       set (fun state =>
         set_nfc (set_isEnabled false (nfc state))
           (set_error (Some "Failed to initialize NFC") state)) ;;
       Return false).

(** [Object.assign(state, initialState)]. *)
Definition reset : Async unit := set (fun _ => initialState).

End Store.

(* ================================================================== *)
(** * Sessions: sequences of actions, and the event loop *)
(* ================================================================== *)

(** What the user interface can ask of the store, and the passing of time
    between two requests. *)
Inductive Op : Type :=
| initializeNFC
| startSession (requested : Status)
| startScanning (requested : Status)
| stopScanning
| processScan (scannedCardId : string)
| updatePilgrimStatus (pilgrimId : string) (newStatus : Status)
| endSession
| resetSession
| reset
| tick (now : Z).

Definition perform (op : Op) : Async unit :=
  match op with
  | initializeNFC => _ <- Store.initializeNFC ;; Return tt
  | startSession requested => Store.startSession requested
  | startScanning requested => Store.startScanning requested
  | stopScanning => Store.stopScanning
  | processScan scannedCardId => Store.processScan scannedCardId
  | updatePilgrimStatus pilgrimId newStatus =>
      _ <- Store.updatePilgrimStatus pilgrimId newStatus ;; Return tt
  | endSession => Store.endSession
  | resetSession => Store.resetSession
  | reset => Store.reset
  | tick now => modify (set_clock now)
  end.

(** The states after each action of [ops], every action running to
    completion before the next one starts. *)
Fixpoint run_ops (env : Oracle) (ops : list Op) (w : Sys) (log : list Call)
  : list Sys :=
  match ops with
  | [] => []
  | op :: ops' =>
      let o := run env (perform op) w log in
      final o :: run_ops env ops' (final o) (calls o)
  end.

(** ** The event loop

    An action that has reached an [await] is parked until the call
    settles; meanwhile other actions may start or resume.  [step] lets the
    pending actions move one at a time, in any order, and lets the
    environment settle an awaited call with any reply: every schedule of
    the JavaScript event loop is among its runs. *)
Inductive Task : Type :=
| Ready (m : Async unit)
| Blocked (c : Call) (k : Thrown + Reply c -> Async unit).

Record Loop : Type := mkLoop {
  world : Sys;
  tasks : list Task;
  made : list Call
}.

Inductive step : Loop -> Loop -> Prop :=
| step_invoke : forall op w ts log,
    step (mkLoop w ts log) (mkLoop w (ts ++ [Ready (perform op)]) log)
| step_return : forall w pre post log,
    step (mkLoop w (pre ++ Ready (Return tt) :: post) log)
         (mkLoop w (pre ++ post) log)
| step_unhandled : forall e w pre post log,
    step (mkLoop w (pre ++ Ready (Throw e) :: post) log)
         (mkLoop w (pre ++ post) log)
| step_get : forall k w pre post log,
    step (mkLoop w (pre ++ Ready (GetState k) :: post) log)
         (mkLoop w (pre ++ Ready (k w) :: post) log)
| step_set : forall f k w pre post log,
    step (mkLoop w (pre ++ Ready (SetState f k) :: post) log)
         (mkLoop (f w) (pre ++ Ready k :: post) log)
| step_issue : forall c k w pre post log,
    step (mkLoop w (pre ++ Ready (Await c k) :: post) log)
         (mkLoop w (pre ++ Blocked c k :: post) (log ++ [c]))
| step_settle : forall c k r w pre post log,
    step (mkLoop w (pre ++ Blocked c k :: post) log)
         (mkLoop w (pre ++ Ready (k r) :: post) log).

Inductive reachable (start : Loop) : Loop -> Prop :=
| reach_start : reachable start start
| reach_step : forall l l', reachable start l -> step l l' ->
    reachable start l'.

(** ** Schedules

    The event loop as JavaScript runs it: an action that is started or
    resumed runs until it finishes or parks at its next [await] of an
    external call.  ([await]s of the code's own [async] functions are not
    parking points here; [step] above allows a switch at every move.) *)

(** Run a pending action until it returns, throws or parks. *)
Fixpoint advance (m : Async unit) (w : Sys) (log : list Call)
  : Sys * list Call * list Task :=
  match m with
  | Return _ => (w, log, [])
  | Throw _ => (w, log, [])
  | GetState k => advance (k w) w log
  | SetState f k => advance k (f w) log
  | Await c k => (w, (log ++ [c])%list, [Blocked c k])
  end.

Definition park (pre post : list Task) (r : Sys * list Call * list Task)
  : Loop :=
  let '(w, log, t) := r in mkLoop w (pre ++ t ++ post) log.

(** The user starts an action. *)
Definition invoke (op : Op) (l : Loop) : Loop :=
  park (tasks l) [] (advance (perform op) (world l) (made l)).

(** The call the [i]-th pending action awaits settles as [env] says. *)
Definition resume (env : Oracle) (i : nat) (l : Loop) : Loop :=
  match nth_error (tasks l) i with
  | Some (Blocked c k) =>
      park (firstn i (tasks l)) (skipn (S i) (tasks l))
           (advance (k (env (made l) c)) (world l) (made l))
  | Some (Ready m) =>
      park (firstn i (tasks l)) (skipn (S i) (tasks l))
           (advance m (world l) (made l))
  | None => l
  end.

Inductive Move : Type :=
| Invoke (op : Op)
| Resume (i : nat).

Fixpoint schedule (env : Oracle) (moves : list Move) (l : Loop) : Loop :=
  match moves with
  | [] => l
  | Invoke op :: moves' => schedule env moves' (invoke op l)
  | Resume i :: moves' => schedule env moves' (resume env i l)
  end.

(** The call a parked action is waiting for. *)
Definition awaited (t : Task) : option Call :=
  match t with
  | Ready _ => None
  | Blocked c _ => Some c
  end.

(* ================================================================== *)
(** * Vocabulary of the properties *)
(* ================================================================== *)

(** The relation the session counters are meant to keep. *)
Definition stats_ok (t : SessionStats) : Prop :=
  totalScanned t = successfulScans t + failedScans t.

Definition counters_ok (w : Sys) : Prop := stats_ok (sessionStats (store w)).

(** [preserves Inv m]: every write of [m] keeps the state predicate [Inv],
    whatever the awaited calls reply. *)
Fixpoint preserves (Inv : Sys -> Prop) {A : Type} (m : Async A) : Prop :=
  match m with
  | Return _ => True
  | Throw _ => True
  | GetState k => forall w, Inv w -> preserves Inv (k w)
  | SetState f k => (forall w, Inv w -> Inv (f w)) /\ preserves Inv k
  | Await c k => forall r, preserves Inv (k r)
  end.

(** [outcomes Q E m]: whatever the state and the replies, a value [m]
    returns satisfies [Q] and a value it throws satisfies [E]. *)
Fixpoint outcomes {A : Type} (Q : A -> Prop) (E : Thrown -> Prop)
    (m : Async A) : Prop :=
  match m with
  | Return a => Q a
  | Throw e => E e
  | GetState k => forall w, outcomes Q E (k w)
  | SetState _ k => outcomes Q E k
  | Await c k => forall r, outcomes Q E (k r)
  end.

Definition anything {A : Type} (_ : A) : Prop := True.

Definition nothing {A : Type} (_ : A) : Prop := False.



(** ** The Record Store, seen from a scan *)

Definition lookup_call (scannedCardId : string) : Call :=
  Pb_getFirstListItem (PocketBaseService.nfc_filter scannedCardId).

Definition is_record_store_call (c : Call) : bool :=
  match c with
  | Pb_getFirstListItem _ | Pb_update _ _ => true
  | _ => false
  end.

(** The failure kind a scan reports when the pilgrim is already in the
    requested state. *)
Definition already (target : Status) : AppError :=
  match target with
  | onboard => ALREADY_ONBOARD
  | offboard => ALREADY_OFFBOARD
  end.

(** The check [processScan] makes before it persists: the pilgrim is
    already in the state the session asks for. *)
Definition already_in_target (newStatus : ScanningMode) (current : Status)
  : bool :=
  (ScanningMode_eqb newStatus onboard && Status_eqb current onboard)
  || (ScanningMode_eqb newStatus offboard && Status_eqb current offboard).

(** The session statistics after a persist of [target] resolved. *)
Definition count_success (target : ScanningMode) (t : SessionStats)
  : SessionStats :=
  let t :=
    if ScanningMode_eqb target onboard
    then set_onboardCount (onboardCount t + 1) t
    else set_offboardCount (offboardCount t + 1) t in
  set_totalScanned (totalScanned t + 1)
    (set_successfulScans (successfulScans t + 1) t).

(** The store state after the [catch] block of [updatePilgrimStatus]. *)
Definition persist_failed (e : Thrown) (w : Sys) : Sys :=
  set_store
    (set_sessionStats (Store.incr_failed (sessionStats (store w)))
       (set_error
          (Some (Js.or_else (message e) "Failed to update pilgrim status"))
          (store w)))
    w.

(** The store state after the [catch] block of [processScan]. *)
Definition process_failed (e : Thrown) (w : Sys) : Sys :=
  set_store
    (set_sessionStats (Store.incr_failed (sessionStats (store w)))
       (set_error (Some (Store.mapErrorMessage (message e))) (store w)))
    w.

(** The store state after the [catch] block of [startScanning]. *)
Definition scan_failed (e : Thrown) (w : Sys) : Sys :=
  set_store
    (set_sessionStats (Store.incr_failed (sessionStats (store w)))
       (set_error (Some (Js.or_else (message e) "Scanning failed"))
          (set_nfc (set_isScanning false (nfc (store w))) (store w))))
    w.

(** ** The Card Reader, seen from a scan *)

(** The reader can be engaged: the manager loaded, the device supports
    NFC, the manager starts, and NFC is switched on. *)
Definition reader_ready (env : Oracle) (w : Sys) : Prop :=
  NfcManager_loaded (service w) = true /\
  (forall history, env history NfcManager_isSupported = inr true) /\
  (forall history, env history NfcManager_start = inr tt) /\
  (forall history, env history NfcManager_isEnabled = inr true).

(** How the raced tag request of every scan settles. *)
Definition request_settles (env : Oracle) (how : Thrown + Race) : Prop :=
  forall history techRequest timeoutMs,
    env history (NfcManager_requestTechnology techRequest timeoutMs) = how.

(** What the scan's [try] block throws when the raced request does not
    deliver a tag. *)
Definition thrown_by_request (how : Thrown + Race) : option Thrown :=
  match how with
  | inl e => Some e
  | inr TimerFired => Some NFCService.createScanTimeout
  | inr (Resolved None) => Some (new_Error "SCAN_TIMEOUT")
  | inr (Resolved (Some _)) => None
  end.

(** The reader delivers a tag from which [card] is read. *)
Definition reads_card (env : Oracle) (tagInfo : TagInfo) (card : string)
  : Prop :=
  (exists tech, request_settles env (inr (Resolved (Some tech)))) /\
  (forall history, env history NfcManager_getTag = inr tagInfo) /\
  (forall history, env history (Tag_identifier tagInfo) = inr (Some card)) /\
  card <> "".

(** The result of a scan that read [card]. *)
Definition read_scan (card : string) (now : Z) : NFCScanResult :=
  {| success := true; cardId := Some card; error := None; timestamp := now |}.

(** The result of a scan whose [try] block threw [e]. *)
Definition failed_scan (e : Thrown) (now : Z) : NFCScanResult :=
  {| success := false;
     cardId := None;
     error := Some (AppError_string (NFCService.mapErrorToMessage e));
     timestamp := now |}.

(** A scan result has exactly one of the card identifier and the error
    kind. *)
Definition well_formed (r : NFCScanResult) : Prop :=
  if success r
  then (exists card, cardId r = Some card /\ card <> "") /\ error r = None
  else cardId r = None /\ exists kind, error r = Some (AppError_string kind).

(** The calls a scan makes before its tag request: with the manager not
    yet initialised, [initialize] comes first. *)
Definition engage_calls (w : Sys) : list Call :=
  if isInitialized (service w) then [NfcManager_isEnabled]
  else [NfcManager_isSupported; NfcManager_start; NfcManager_isEnabled].

Definition request_call (w : Sys) : Call :=
  NfcManager_requestTechnology
    match Platform_OS w with
    | android => [Ndef; NfcA; NfcB; NfcF; NfcV]
    | _ => [Ndef]
    end
    (scanTimeout (service w)).

(** The state a scan leaves the service in. *)
Definition engaged (w : Sys) : Sys :=
  if isInitialized (service w) then w
  else set_service (NFCService.set_isInitialized true (service w)) w.

(** The store state once [startScanning] has announced the scan. *)
Definition scanning (requested : Status) (w : Sys) : Sys :=
  set_store
    (set_error None
       (set_nfc (set_isScanning true (nfc (store w)))
          (set_scanningMode requested (store w))))
    w.

(** The store state once [startScanning] has recorded the scan result. *)
Definition scanned (r : NFCScanResult) (w : Sys) : Sys :=
  set_store
    (set_nfc (set_isScanning false (set_lastScanResult (Some r) (nfc (store w))))
             (store w))
    w.

(* ================================================================== *)
(** * Example environments *)
(* ================================================================== *)

(** An environment that answers each kind of call the same way every
    time. *)
Record Replies : Type := mkReplies {
  on_isSupported : Thrown + bool;
  on_start : Thrown + unit;
  on_isEnabled : Thrown + bool;
  on_requestTechnology : Thrown + Race;
  on_getTag : Thrown + TagInfo;
  on_cancelTechnologyRequest : Thrown + unit;
  on_identifier : Thrown + option string;
  on_getFirstListItem : string -> Thrown + Pilgrim;
  on_update : string -> ScanningMode -> Thrown + Pilgrim
}.

Definition answering (r : Replies) : Oracle :=
  fun _ c =>
    match c as c0 return Thrown + Reply c0 with
    | NfcManager_isSupported => on_isSupported r
    | NfcManager_start => on_start r
    | NfcManager_isEnabled => on_isEnabled r
    | NfcManager_requestTechnology _ _ => on_requestTechnology r
    | NfcManager_getTag => on_getTag r
    | NfcManager_cancelTechnologyRequest => on_cancelTechnologyRequest r
    | Tag_identifier _ => on_identifier r
    | Pb_getFirstListItem filter => on_getFirstListItem r filter
    | Pb_update recordId newStatus => on_update r recordId newStatus
    end.

(** What the PocketBase client rejects with. *)
Definition ClientResponseError (httpStatus : Z) (msg : string) : Thrown :=
  {| message := Some msg;
     status := Some httpStatus;
     code := None;
     toString := "ClientResponseError " ++ msg |}.

Definition not_found : Thrown :=
  ClientResponseError 404 "The requested resource wasn't found.".

Definition network_down : Thrown :=
  ClientResponseError 0 "Something went wrong while processing your request.".

Definition pilgrim_p1 (s : Status) : Pilgrim :=
  {| id := "p1";
     full_name := "Pilgrim One";
     passport_number := "X0000001";
     nfc_card_id := "A1";
     seat_number := 12;
     pilgrim_status := s;
     phone := "";
     photo := "";
     date_of_birth := "1970-01-01";
     sex := male;
     nationality := "";
     created := "2025-01-01";
     updated := "2025-01-01" |}.

Definition some_tag : TagInfo :=
  {| tag_id := Some [161];
     tag_uid := None;
     tag_serialNumber := None;
     tag_type := None;
     tag_maxSize := None |}.

(** A device whose reader works and reads card ["A1"], in front of a
    Record Store that holds [pilgrim_p1 s] and accepts updates. *)
Definition working (s : Status) : Replies :=
  {| on_isSupported := inr true;
     on_start := inr tt;
     on_isEnabled := inr true;
     on_requestTechnology := inr (Resolved (Some Ndef));
     on_getTag := inr some_tag;
     on_cancelTechnologyRequest := inr tt;
     on_identifier := inr (Some "A1");
     on_getFirstListItem := fun filter =>
       if (filter =? PocketBaseService.nfc_filter "A1")%string
       then inr (pilgrim_p1 s) else inl not_found;
     on_update := fun recordId newStatus =>
       match newStatus with
       | mode s' =>
           if (recordId =? "p1")%string then inr (pilgrim_p1 s')
           else inl not_found
       | idle => inr (pilgrim_p1 s)
       end |}.

Definition with_requestTechnology (v : Thrown + Race) (r : Replies) : Replies :=
  mkReplies (on_isSupported r) (on_start r) (on_isEnabled r) v (on_getTag r)
            (on_cancelTechnologyRequest r) (on_identifier r)
            (on_getFirstListItem r) (on_update r).

Definition with_getFirstListItem (v : string -> Thrown + Pilgrim) (r : Replies)
  : Replies :=
  mkReplies (on_isSupported r) (on_start r) (on_isEnabled r)
            (on_requestTechnology r) (on_getTag r)
            (on_cancelTechnologyRequest r) (on_identifier r) v (on_update r).

Definition with_update (v : string -> ScanningMode -> Thrown + Pilgrim)
    (r : Replies) : Replies :=
  mkReplies (on_isSupported r) (on_start r) (on_isEnabled r)
            (on_requestTechnology r) (on_getTag r)
            (on_cancelTechnologyRequest r) (on_identifier r)
            (on_getFirstListItem r) v.

(** The app just launched on a device whose NFC manager loaded. *)
Definition launched : Sys :=
  {| store := Store.initialState;
     service := {| NfcManager_loaded := true;
                   isInitialized := false;
                   scanTimeout := 5000 |};
     Platform_OS := android;
     clock := 1000 |}.

(** The same, with the pilgrim list fetched and a boarding session under
    way. *)
Definition boarding : Sys :=
  set_store
    (set_scanningMode onboard
       (set_pilgrims [pilgrim_p1 onboard] (store launched)))
    launched.

(** A scan was announced for boarding and its tag request is awaited. *)
Definition scan_in_flight : Sys := scanning onboard launched.

Definition started : Loop := mkLoop launched [] [].

(** A rejection whose text names a code checked before the cancellation
    words. *)
Definition cancelled_while_disabled : Thrown :=
  new_Error "Request cancelled: NFC_DISABLED".

(** A reader whose pending tag request is rejected once
    [cancelTechnologyRequest] has been called. *)
Definition cancelled_by_user : Thrown := new_Error "cancelled".

Definition was_cancelled (history : list Call) : bool :=
  existsb (fun c => match c with
                    | NfcManager_cancelTechnologyRequest => true
                    | _ => false
                    end) history.

Definition cancellable (r : Replies) : Oracle :=
  fun history c =>
    match c as c0 return Thrown + Reply c0 with
    | NfcManager_requestTechnology _ _ =>
        if was_cancelled history then inl cancelled_by_user
        else on_requestTechnology r
    | c0 => answering r history c0
    end.

(** The user starts a boarding session and a scan; the scan parks at its
    tag request. *)
Definition to_tag_request : list Move :=
  [Invoke (startSession onboard); Invoke (startScanning onboard);
   Resume 0; Resume 0; Resume 0].

(** Environments used below. *)
Definition unknown_card : Oracle :=
  answering (with_getFirstListItem (fun _ => inl not_found)
                                   (working offboard)).

Definition store_unreachable : Oracle :=
  answering (with_update (fun _ _ => inl network_down) (working offboard)).

Definition timing_out : Oracle :=
  answering (with_requestTechnology (inr TimerFired) (working offboard)).

Definition cancelling : Oracle :=
  answering (with_requestTechnology (inl cancelled_by_user)
                                    (working offboard)).

(* ================================================================== *)
(** * Card identifiers ([src/services/nfc/index.ts], continued) *)
(* ================================================================== *)

From Stdlib Require DecimalString HexadecimalString DecimalZ.

(** Numbers written out as text, and the string methods [bytesToHex] and
    [extractCardId] call. *)
Module JsText.

(** [n.toString(16)] of an integer: lower-case digits, no leading zero, a
    minus sign in front of a negative number. *)
Definition toString16 (n : Z) : string :=
  HexadecimalString.NilZero.string_of_int (Z.to_hex_int n).

(** [`${n}`] of an integer (below 10^21 in size, where JavaScript switches
    to exponent notation). *)
Definition toString10 (n : Z) : string :=
  DecimalString.NilZero.string_of_int (Z.to_int n).

(** [s.padStart(targetLength, pad)] with a pad of one character. *)
Definition padStart (targetLength : nat) (pad : ascii) (s : string) : string :=
  string_of_list_ascii (repeat pad (targetLength - String.length s)) ++ s.

(** [s.toUpperCase()] on text whose letters are a to z. *)
Definition upper (c : ascii) : ascii :=
  let n := nat_of_ascii c in
  if ((97 <=? n) && (n <=? 122))%nat then ascii_of_nat (n - 32) else c.

Fixpoint toUpperCase (s : string) : string :=
  match s with
  | EmptyString => EmptyString
  | String c s' => String (upper c) (toUpperCase s')
  end.

(** [parts.join('')]. *)
Fixpoint join (parts : list string) : string :=
  match parts with
  | [] => ""
  | part :: parts' => part ++ join parts'
  end.

(** Truthiness of a string that may be [undefined]. *)
Definition truthy_string (o : option string) : bool :=
  match o with
  | Some s => negb (s =? "")%string
  | None => false
  end.

(** One UTF-16 code unit in the encoding the strings of this file have
    (UTF-8, as the source's literals).  The units that arise are the bytes
    of a payload, so none is half of a surrogate pair. *)
Definition utf8 (unit : Z) : list Z :=
  if unit <? 128 then [unit]
  else if unit <? 2048 then [192 + unit / 64; 128 + unit mod 64]
  else [224 + unit / 4096; 128 + (unit / 64) mod 64; 128 + unit mod 64].

Definition chars (bytes : list Z) : string :=
  string_of_list_ascii (map (fun b => ascii_of_N (Z.to_N b)) bytes).

(** [String.fromCharCode.apply(null, units)]: each number is taken modulo
    2^16. *)
Definition fromCharCode (units : list Z) : string :=
  join (map (fun u => chars (utf8 (u mod 65536))) units).

End JsText.

(** One record of a tag's NDEF message; its [payload] may be missing. *)
Record NdefRecord : Type := mkNdefRecord {
  payload : option (list Z)
}.

Module NFCCard.

(** [bytes.map(byte => byte.toString(16).padStart(2, '0')).join('')
    .toUpperCase()]. *)
Definition bytesToHex (bytes : list Z) : string :=
  JsText.toUpperCase
    (JsText.join
       (map (fun byte => JsText.padStart 2 "0" (JsText.toString16 byte))
            bytes)).

Section Tags.

(** [tag.ndefMessage]: a property of the tag object [getTag] resolves to,
    beside the ones [TagInfo] lists. *)
Variable ndefMessage : TagInfo -> option (list NdefRecord).

(** [readNdefData] asks the manager for the tag again.  It does not check
    that the manager loaded: without it, [NfcManager.getTag] is a
    [TypeError], caught like every other failure. *)
Definition readNdefData : Async (option string) :=
  try_catch
    (self <- NFCService.this ;;
     if negb (NfcManager_loaded self) then
       Throw (new_Error "Cannot read property 'getTag' of null")
     else
       tag <- await NfcManager_getTag ;;
       match ndefMessage tag with
       | Some (record :: _) =>
           match payload record with
           | Some bytes => Return (Some (JsText.fromCharCode bytes))
           | None => Return None
           end
       | _ => Return None
       end)
    (fun _ => Return None).

(** The five methods, in the order the code tries them.  An array is
    truthy even when empty; a string or a number is truthy unless empty
    or zero. *)
Definition extractCardId (tagInfo : TagInfo) : Async (option string) :=
  try_catch
    (match tag_id tagInfo with
     | Some bytes => Return (Some (bytesToHex bytes))
     | None =>
     match tag_uid tagInfo with
     | Some bytes => Return (Some (bytesToHex bytes))
     | None =>
     if JsText.truthy_string (tag_serialNumber tagInfo) then
       Return (tag_serialNumber tagInfo)
     else
       ndefData <- readNdefData ;;
       if JsText.truthy_string ndefData then Return ndefData
       else if Js.truthy_number (tag_maxSize tagInfo)
               || JsText.truthy_string (tag_type tagInfo) then
         size <- match tag_maxSize tagInfo with
                 | Some maxSize =>
                     if negb (maxSize =? 0) then Return maxSize else Date_now
                 | None => Date_now
                 end ;;
         Return (Some (Js.or_else (tag_type tagInfo) "unknown"
                         ++ "_" ++ JsText.toString10 size))
       else Return None
     end
     end)
    (fun _ => Return None).

End Tags.

(** [startScanning], with the extraction it calls as a parameter:
    [NFCService.startScanning] is [scan NFCService.extractCardId]. *)
Definition scan (extract : TagInfo -> Async (option string))
  : Async NFCScanResult :=
  try_finally
    (try_catch
       (self <- NFCService.this ;;
        if negb (NfcManager_loaded self) then
          Throw (new_Error "NFC_NOT_AVAILABLE_IN_EXPO_GO")
        else
          (if negb (isInitialized self) then
             initialized <- NFCService.initialize ;;
             if negb initialized then Throw (new_Error "NFC_NOT_SUPPORTED")
             else Return tt
           else Return tt) ;;
          enabled <- NFCService.isEnabled ;;
          if negb enabled then Throw (new_Error "NFC_DISABLED")
          else
            w <- get ;;
            let techRequest :=
              match Platform_OS w with
              | android => [Ndef; NfcA; NfcB; NfcF; NfcV]
              | _ => [Ndef]
              end in
            raced <- await (NfcManager_requestTechnology
                              techRequest (scanTimeout (service w))) ;;
            match raced with
            | TimerFired => Throw NFCService.createScanTimeout
            | Resolved None => Throw (new_Error "SCAN_TIMEOUT")
            | Resolved (Some _) =>
                tagInfo <- await NfcManager_getTag ;;
                extracted <- extract tagInfo ;;
                match extracted with
                | None => Throw (new_Error "INVALID_CARD")
                | Some card =>
                    if (card =? "")%string then
                      Throw (new_Error "INVALID_CARD")
                    else
                      now <- Date_now ;;
                      Return {| success := true;
                                cardId := Some card;
                                error := None;
                                timestamp := now |}
                end
            end)
       (fun error =>
          now <- Date_now ;;
          Return {| success := false;
                    cardId := None;
                    error := Some (AppError_string
                                     (NFCService.mapErrorToMessage error));
                    timestamp := now |}))
    NFCService.stopScanning.

(** The scan with the code's own extraction. *)
Definition startScanning (ndefMessage : TagInfo -> option (list NdefRecord))
  : Async NFCScanResult :=
  scan (extractCardId ndefMessage).

End NFCCard.

(* ================================================================== *)
(** * The query cache ([src/hooks/usePilgrims.ts]) *)
(* ================================================================== *)

(** The updaters the mutations hand to [queryClient.setQueryData] for the
    list under the key [['pilgrims']]; [None] is a list not fetched
    yet. *)
Module PilgrimsCache.

(** [useUpdatePilgrimStatus] and [useUpdatePilgrim], [onSuccess]. *)
Definition onUpdated (updatedPilgrim : Pilgrim)
    (oldPilgrims : option (list Pilgrim)) : list Pilgrim :=
  match oldPilgrims with
  | None => [updatedPilgrim]
  | Some old =>
      map (fun pilgrim =>
             if (id pilgrim =? id updatedPilgrim)%string then updatedPilgrim
             else pilgrim)
          old
  end.

(** [useCreatePilgrim], [onSuccess]. *)
Definition onCreated (newPilgrim : Pilgrim)
    (oldPilgrims : option (list Pilgrim)) : list Pilgrim :=
  match oldPilgrims with
  | None => [newPilgrim]
  | Some old => (old ++ [newPilgrim])%list
  end.

(** [useDeletePilgrim], [onSuccess]. *)
Definition onDeleted (deletedId : string)
    (oldPilgrims : option (list Pilgrim)) : list Pilgrim :=
  match oldPilgrims with
  | None => []
  | Some old =>
      filter (fun pilgrim => negb (id pilgrim =? deletedId)%string) old
  end.

End PilgrimsCache.

(* ================================================================== *)
(** * Arabic-Indic numerals ([src/localization]) *)
(* ================================================================== *)

Module Localization.

(** [ARABIC_TEXTS.NUMBERS]. *)
Definition NUMBERS : list string :=
  ["٠"; "١"; "٢"; "٣"; "٤"; "٥"; "٦"; "٧"; "٨"; "٩"].

(** A character the pattern [/[0-9]/] matches. *)
Definition is_digit (c : ascii) : bool :=
  ((48 <=? nat_of_ascii c) && (nat_of_ascii c <=? 57))%nat.

(** [parseInt(digit)] of one such character. *)
Definition parseInt (digit : ascii) : nat := (nat_of_ascii digit - 48)%nat.

(** [text.replace(/[0-9]/g, digit => NUMBERS[parseInt(digit)] || digit)].
    In UTF-8 the bytes of the digits 0 to 9 occur nowhere but as those
    digits, so the replacement goes byte by byte. *)
Fixpoint toArabicNumbers (text : string) : string :=
  match text with
  | EmptyString => EmptyString
  | String c text' =>
      (if is_digit c
       then Js.or_else (nth_error NUMBERS (parseInt c)) (String c EmptyString)
       else String c EmptyString)
      ++ toArabicNumbers text'
  end.

End Localization.

(* ================================================================== *)
(** * More vocabulary *)
(* ================================================================== *)

(** [wp m Q w log]: run from state [w] after the calls [log], [m] ends in
    a result, a state and a list of calls that satisfy [Q], whatever the
    awaited calls reply. *)
Fixpoint wp {A : Type} (m : Async A)
    (Q : Settled A -> Sys -> list Call -> Prop) (w : Sys) (log : list Call)
  : Prop :=
  match m with
  | Return a => Q (Fulfilled a) w log
  | Throw e => Q (Rejected e) w log
  | GetState k => wp (k w) Q w log
  | SetState f k => wp k Q (f w) log
  | Await c k => forall r, wp (k r) Q w (log ++ [c])
  end.

(** [issues P m]: every call [m] makes satisfies [P]. *)
Fixpoint issues (P : Call -> Prop) {A : Type} (m : Async A) : Prop :=
  match m with
  | Return _ => True
  | Throw _ => True
  | GetState k => forall w, issues P (k w)
  | SetState _ k => issues P k
  | Await c k => P c /\ forall r, issues P (k r)
  end.

Definition is_nfc_manager_call (c : Call) : bool :=
  match c with
  | NfcManager_isSupported | NfcManager_start | NfcManager_isEnabled
  | NfcManager_requestTechnology _ _ | NfcManager_getTag
  | NfcManager_cancelTechnologyRequest => true
  | _ => false
  end.

(** A byte, as the elements of a tag's id are. *)
Definition is_byte (b : Z) : Prop := 0 <= b < 256.

(** The characters [bytesToHex] writes. *)
Definition is_upper_hex (c : ascii) : bool :=
  let n := nat_of_ascii c in
  ((48 <=? n) && (n <=? 57) || (65 <=? n) && (n <=? 70))%nat.

Fixpoint string_forall (f : ascii -> bool) (s : string) : bool :=
  match s with
  | EmptyString => true
  | String c s' => f c && string_forall f s'
  end.

Fixpoint string_count (f : ascii -> bool) (s : string) : nat :=
  match s with
  | EmptyString => O
  | String c s' => ((if f c then 1 else 0) + string_count f s')%nat
  end.

(** The two characters [bytesToHex] writes for one element. *)
Definition hex_pair (byte : Z) : string :=
  JsText.toUpperCase (JsText.padStart 2 "0" (JsText.toString16 byte)).

(** The value of one hexadecimal digit. *)
Definition hex_value (c : ascii) : Z :=
  let n := Z.of_nat (nat_of_ascii c) in
  if n <=? 57 then n - 48 else n - 55.

(** For a byte, [hex_pair] is two upper-case digits that spell it. *)
Definition pair_ok (n : nat) : bool :=
  match hex_pair (Z.of_nat n) with
  | String c1 (String c2 EmptyString) =>
      is_upper_hex c1 && is_upper_hex c2
      && (16 * hex_value c1 + hex_value c2 =? Z.of_nat n)
  | _ => false
  end.

(** The failure kinds the Card Reader adapter reports. *)
Definition adapter_kind (kind : AppError) : bool :=
  match kind with
  | NFC_NOT_SUPPORTED | NFC_DISABLED | SCAN_TIMEOUT | INVALID_CARD
  | UNKNOWN_ERROR => true
  | _ => false
  end.

(** A scan result has either a card identifier or one of the adapter's
    failure kinds. *)
Definition settled_scan (r : NFCScanResult) : Prop :=
  if success r
  then (exists card, cardId r = Some card /\ card <> "") /\ error r = None
  else cardId r = None /\
       exists kind,
         adapter_kind kind = true /\ error r = Some (AppError_string kind).

(** The failure result of a scan, by kind. *)
Definition failure (kind : AppError) (now : Z) : NFCScanResult :=
  {| success := false;
     cardId := None;
     error := Some (AppError_string kind);
     timestamp := now |}.

(** The device cannot start its reader: it reports no NFC support, or
    the support check or the manager's start rejects. *)
Definition cannot_start (env : Oracle) (asked : list Call) : Prop :=
  (asked = [NfcManager_isSupported] /\
   exists r, r <> inr true /\
             forall history, env history NfcManager_isSupported = r) \/
  (asked = [NfcManager_isSupported; NfcManager_start] /\
   (forall history, env history NfcManager_isSupported = inr true) /\
   exists e, forall history, env history NfcManager_start = inl e).

(** The reader is there (the manager loaded, and was or can be started)
    but NFC is switched off, or the check of it rejects. *)
Definition switched_off (env : Oracle) (w : Sys) : Prop :=
  NfcManager_loaded (service w) = true /\
  (forall history, env history NfcManager_isSupported = inr true) /\
  (forall history, env history NfcManager_start = inr tt) /\
  exists r, r <> inr true /\
            forall history, env history NfcManager_isEnabled = r.

(** The app on a device where the NFC manager did not load (Expo Go). *)
Definition expo_go : Sys :=
  set_service (mkNFCService false false 5000) launched.

(** A tag that offers nothing but its type. *)
Definition typed_tag : TagInfo :=
  {| tag_id := None;
     tag_uid := None;
     tag_serialNumber := None;
     tag_type := Some "NfcA";
     tag_maxSize := None |}.

(** A tag whose id is an empty array, and which has a uid. *)
Definition blank_id_tag : TagInfo :=
  {| tag_id := Some [];
     tag_uid := Some [4; 161];
     tag_serialNumber := Some "S1";
     tag_type := None;
     tag_maxSize := None |}.

Definition with_getTag (v : Thrown + TagInfo) (r : Replies) : Replies :=
  mkReplies (on_isSupported r) (on_start r) (on_isEnabled r)
            (on_requestTechnology r) v (on_cancelTechnologyRequest r)
            (on_identifier r) (on_getFirstListItem r) (on_update r).

Definition with_isSupported (v : Thrown + bool) (r : Replies) : Replies :=
  mkReplies v (on_start r) (on_isEnabled r) (on_requestTechnology r)
            (on_getTag r) (on_cancelTechnologyRequest r) (on_identifier r)
            (on_getFirstListItem r) (on_update r).

Definition with_isEnabled (v : Thrown + bool) (r : Replies) : Replies :=
  mkReplies (on_isSupported r) (on_start r) v (on_requestTechnology r)
            (on_getTag r) (on_cancelTechnologyRequest r) (on_identifier r)
            (on_getFirstListItem r) (on_update r).



(** A character of the ASCII range. *)
Definition is_ascii7 (c : ascii) : bool := (nat_of_ascii c <? 128)%nat.
(* ================================================================== *)
(** * Programs that keep a state predicate *)
(* ================================================================== *)

Section Preservation.

Variable Inv : Sys -> Prop.

Lemma preserves_bind {A B : Type} (m : Async A) (f : A -> Async B) :
  preserves Inv m -> (forall a, preserves Inv (f a)) ->
  preserves Inv (bind m f).
Proof.
  intros Hm Hf.
  induction m as [a | e | k IH | g k IH | c k IH]; simpl in *; auto.
  destruct Hm; auto.
Qed.

Lemma preserves_try_catch {A : Type} (m : Async A) (h : Thrown -> Async A) :
  preserves Inv m -> (forall e, preserves Inv (h e)) ->
  preserves Inv (try_catch m h).
Proof.
  intros Hm Hh.
  induction m as [a | e | k IH | g k IH | c k IH]; simpl in *; auto.
  destruct Hm; auto.
Qed.

Lemma preserves_try_finally {A : Type} (m : Async A) (fin : Async unit) :
  preserves Inv m -> preserves Inv fin -> preserves Inv (try_finally m fin).
Proof.
  intros Hm Hfin.
  induction m as [a | e | k IH | g k IH | c k IH]; simpl in *; auto.
  - apply preserves_bind; simpl; auto.
  - apply preserves_bind; simpl; auto.
  - destruct Hm; auto.
Qed.

(** Run to completion, such a program ends in a state that satisfies the
    predicate. *)
Lemma run_preserves {A : Type} (env : Oracle) (m : Async A) :
  preserves Inv m ->
  forall w log, Inv w -> Inv (final (run env m w log)).
Proof.
  induction m as [a | e | k IH | g k IH | c k IH]; simpl; intros Hm w log Hw;
    auto.
  destruct Hm; auto.
Qed.

(** In the event loop, every move keeps the predicate, provided every
    action the user can start does. *)
Hypothesis perform_preserves : forall op, preserves Inv (perform op).



End Preservation.

(* ================================================================== *)
(** * Proof tools *)
(* ================================================================== *)

Arguments NFCService.mapErrorToMessage : simpl never.
Arguments NFCService.startScanning : simpl never.

Create HintDb keeps.

(** Proof search for [preserves]: follow the program's structure, split on
    what it branches on, and leave each write to [tac]. *)
Ltac head_of t :=
  lazymatch t with
  | ?f _ => head_of f
  | _ => constr:(t)
  end.

Ltac keeps tac :=
  intros;
  lazymatch goal with
  | |- True => exact Logic.I
  | |- _ /\ _ => split; keeps tac
  | |- preserves _ (bind _ _) => apply preserves_bind; keeps tac
  | |- preserves _ (try_catch _ _) => apply preserves_try_catch; keeps tac
  | |- preserves _ (try_finally _ _) => apply preserves_try_finally; keeps tac
  | |- preserves _ (if ?b then _ else _) => destruct b; keeps tac
  | |- preserves _ (match ?x with _ => _ end) => destruct x; keeps tac
  | |- preserves _ (let _ := _ in _) => cbv zeta; keeps tac
  | |- preserves _ (Return _) => exact Logic.I
  | |- preserves _ (Throw _) => exact Logic.I
  | |- preserves _ (GetState _) => cbn [preserves]; keeps tac
  | |- preserves _ (SetState _ _) => cbn [preserves]; keeps tac
  | |- preserves _ (Await _ _) => cbn [preserves]; keeps tac
  | |- preserves _ ?m =>
      first [ solve [ auto with keeps ]
            | let h := head_of m in unfold h; keeps tac ]
  | |- _ => tac
  end.

(** Each write to the counters, checked by arithmetic. *)
Ltac counters :=
  unfold counters_ok, stats_ok, Store.incr_failed in *; simpl in *;
  repeat match goal with
         | |- context [match ?x with _ => _ end] => destruct x; simpl
         end;
  try lia.

(** ** The Card Reader adapter never writes the store *)

Section ReaderFrame.

Variable P : AppState -> Prop.

Let on_store (w : Sys) : Prop := P (store w).

Ltac frame := unfold on_store in *; simpl; assumption.

Lemma initialize_frame : preserves on_store NFCService.initialize.
Proof. keeps frame. Qed.

Lemma isEnabled_frame : preserves on_store NFCService.isEnabled.
Proof. keeps frame. Qed.

Lemma stopScanning_frame : preserves on_store NFCService.stopScanning.
Proof. keeps frame. Qed.

Lemma startScanning_frame : preserves on_store NFCService.startScanning.
Proof. keeps frame. Qed.

End ReaderFrame.

#[export] Hint Resolve initialize_frame isEnabled_frame stopScanning_frame
  startScanning_frame : keeps.

(* ================================================================== *)
(** * The counters: total = successful + failed *)
(* ================================================================== *)

Lemma updatePilgrimStatus_counters_ok pilgrimId newStatus :
  preserves counters_ok (Store.updatePilgrimStatus pilgrimId newStatus).
Proof. keeps counters. Qed.

#[export] Hint Resolve updatePilgrimStatus_counters_ok : keeps.

Lemma processScan_counters_ok scannedCardId :
  preserves counters_ok (Store.processScan scannedCardId).
Proof. keeps counters. Qed.

#[export] Hint Resolve processScan_counters_ok : keeps.

Lemma reader_counters_ok : preserves counters_ok NFCService.startScanning.
Proof. exact (startScanning_frame (fun a => stats_ok (sessionStats a))). Qed.

Lemma reader_stop_counters_ok : preserves counters_ok NFCService.stopScanning.
Proof. exact (stopScanning_frame (fun a => stats_ok (sessionStats a))). Qed.

#[export] Hint Resolve reader_counters_ok reader_stop_counters_ok : keeps.

Lemma perform_counters_ok (op : Op) : preserves counters_ok (perform op).
Proof. destruct op; cbn [perform]; keeps counters. Qed.

Lemma initial_counters_ok svc os now :
  counters_ok (mkSys Store.initialState svc os now).
Proof. reflexivity. Qed.

Lemma run_ops_counters_ok (env : Oracle) (ops : list Op) :
  forall w log, counters_ok w -> Forall counters_ok (run_ops env ops w log).
Proof.
  induction ops as [| op ops IH]; intros w log Hw; simpl.
  - constructor.
  - assert (Hnext : counters_ok (final (run env (perform op) w log)))
      by (apply run_preserves; auto using perform_counters_ok).
    constructor; auto.
Qed.

(** C1.  Whatever the Card Reader and the Record Store answer, and whatever
    sequence of store actions (startSession, startScanning, processScan,
    updatePilgrimStatus, endSession, resetSession, and also initializeNFC,
    stopScanning and reset) is run from the initial state, the state after
    every action has totalScanned = successfulScans + failedScans. *)
Theorem total_is_successful_plus_failed
    (env : Oracle) (ops : list Op) (svc : NFCServiceState) (os : Platform)
    (now : Z) :
  Forall (fun w => totalScanned (sessionStats (store w))
                   = successfulScans (sessionStats (store w))
                     + failedScans (sessionStats (store w)))
         (run_ops env ops (mkSys Store.initialState svc os now) []).
Proof.
  apply (run_ops_counters_ok env ops). apply initial_counters_ok.
Qed.


(** [updateSessionStats], which the scanner screen uses, is outside that
    list for a reason: it writes the fields it is given and no other. *)
Example updateSessionStats_can_break_total :
  let stats := Store.mkPartialStats None None (Some 1) None None None None in
  let o := run (answering (working offboard))
               (Store.updateSessionStats stats) launched [] in
  totalScanned (sessionStats (store (final o))) = 0 /\
  successfulScans (sessionStats (store (final o))) = 0 /\
  failedScans (sessionStats (store (final o))) = 1.
Proof. cbv zeta. repeat split. Qed.

(* ================================================================== *)
(** * One action, run to completion *)
(* ================================================================== *)

Lemma run_bind {A B : Type} (env : Oracle) (m : Async A) (f : A -> Async B) :
  forall w log,
    run env (bind m f) w log =
    match result (run env m w log) with
    | Fulfilled a =>
        run env (f a) (final (run env m w log)) (calls (run env m w log))
    | Rejected e =>
        mkOutcome (Rejected e) (final (run env m w log))
                  (calls (run env m w log))
    end.
Proof.
  induction m as [a | e | k IH | g k IH | c k IH]; intros w log; simpl; auto.
Qed.

Lemma run_try_catch {A : Type} (env : Oracle) (m : Async A)
    (h : Thrown -> Async A) :
  forall w log,
    run env (try_catch m h) w log =
    match result (run env m w log) with
    | Fulfilled a => run env m w log
    | Rejected e =>
        run env (h e) (final (run env m w log)) (calls (run env m w log))
    end.
Proof.
  induction m as [a | e | k IH | g k IH | c k IH]; intros w log; simpl; auto.
Qed.

Lemma or_else_Some (s d : string) : s <> "" -> Js.or_else (Some s) d = s.
Proof.
  intros Hs. unfold Js.or_else.
  destruct (String.eqb_spec s ""); congruence.
Qed.

Lemma or_else_nonempty (o : option string) (d : string) :
  d <> "" -> Js.or_else o d <> "".
Proof.
  intros Hd. destruct o as [s |]; simpl; auto.
  destruct (String.eqb_spec s ""); auto.
Qed.

(** A normalised error always carries a message. *)
Lemma handleError_message (e : Thrown) :
  exists msg, message (PocketBaseService.handleError e) = Some msg /\ msg <> "".
Proof.
  unfold PocketBaseService.handleError.
  destruct (Js.truthy_number (status e)); simpl; eexists; split;
    try reflexivity; apply or_else_nonempty; discriminate.
Qed.

(** ** Persisting a status *)

(** C5.  When the Record Store accepts the update to [onboard], the action
    resolves with the updated record and onboardCount, successfulScans and
    totalScanned each grow by exactly 1, offboardCount and failedScans
    staying as they were; for [offboard] the same with the two counts
    exchanged. *)
Theorem persist_success_counts
    (env : Oracle) (w : Sys) (log : list Call) (pilgrimId : string)
    (target : Status) (updated : Pilgrim) :
  env log (Pb_update pilgrimId target) = inr updated ->
  let before := sessionStats (store w) in
  let o := run env (Store.updatePilgrimStatus pilgrimId target) w log in
  let after := sessionStats (store (final o)) in
  result o = Fulfilled updated /\
  successfulScans after = successfulScans before + 1 /\
  totalScanned after = totalScanned before + 1 /\
  failedScans after = failedScans before /\
  match target with
  | onboard => onboardCount after = onboardCount before + 1
               /\ offboardCount after = offboardCount before
  | offboard => offboardCount after = offboardCount before + 1
                /\ onboardCount after = onboardCount before
  end.
Proof.
  intros Hreply. simpl. rewrite Hreply. simpl.
  destruct (Store.findIndex _ _); destruct target; simpl; repeat split; lia.
Qed.

Lemma persist_success_counts_witness :
  let o := run (answering (working offboard))
               (Store.updatePilgrimStatus "p1" onboard) boarding [] in
  result o = Fulfilled (pilgrim_p1 onboard) /\
  successfulScans (sessionStats (store (final o))) = 1 /\
  totalScanned (sessionStats (store (final o))) = 1 /\
  onboardCount (sessionStats (store (final o))) = 1 /\
  offboardCount (sessionStats (store (final o))) = 0.
Proof.
  destruct (persist_success_counts (answering (working offboard)) boarding []
              "p1" onboard (pilgrim_p1 onboard) eq_refl)
    as (Hres & Hsucc & Htotal & _ & Hon & Hoff).
  exact (conj Hres (conj Hsucc (conj Htotal (conj Hon Hoff)))).
Defined.

(** C6.  When the Record Store rejects the update, the action rejects with
    the normalised error; the store's error field holds that error's
    message, which is the underlying message whenever there is one;
    failedScans and totalScanned each grow by 1 and no other counter
    moves; the pilgrim list and the selected pilgrim are what they were. *)
Theorem persist_failure_leaves_record
    (env : Oracle) (w : Sys) (log : list Call) (pilgrimId : string)
    (target : ScanningMode) (e : Thrown) :
  env log (Pb_update pilgrimId target) = inl e ->
  let before := sessionStats (store w) in
  let o := run env (Store.updatePilgrimStatus pilgrimId target) w log in
  let after := sessionStats (store (final o)) in
  let surfaced := PocketBaseService.handleError e in
  result o = Rejected surfaced /\
  app_error (store (final o)) = message surfaced /\
  (forall msg, message e = Some msg -> msg <> "" ->
               app_error (store (final o)) = Some msg) /\
  failedScans after = failedScans before + 1 /\
  totalScanned after = totalScanned before + 1 /\
  successfulScans after = successfulScans before /\
  onboardCount after = onboardCount before /\
  offboardCount after = offboardCount before /\
  pilgrims (store (final o)) = pilgrims (store w) /\
  selectedPilgrim (store (final o)) = selectedPilgrim (store w).
Proof.
  intros Hreply. simpl. rewrite Hreply. simpl.
  destruct (handleError_message e) as [msg [Hmsg Hne]].
  rewrite Hmsg. rewrite (or_else_Some _ _ Hne).
  repeat split; auto.
  intros m Hm Hm'. revert Hmsg. unfold PocketBaseService.handleError.
  rewrite Hm.
  destruct (Js.truthy_number (status e)); simpl;
    destruct (String.eqb_spec m ""); congruence.
Qed.

Lemma persist_failure_leaves_record_witness :
  let o := run store_unreachable (Store.updatePilgrimStatus "p1" offboard)
               boarding [] in
  app_error (store (final o))
    = Some "Something went wrong while processing your request." /\
  failedScans (sessionStats (store (final o))) = 1 /\
  totalScanned (sessionStats (store (final o))) = 1 /\
  pilgrims (store (final o)) = [pilgrim_p1 onboard].
Proof.
  destruct (persist_failure_leaves_record store_unreachable boarding []
              "p1" offboard network_down eq_refl)
    as (_ & _ & Hmsg & Hfailed & Htotal & _ & _ & _ & Hlist & _).
  assert (Hnonempty :
            "Something went wrong while processing your request." <> "")
    by discriminate.
  exact (conj (Hmsg _ eq_refl Hnonempty)
              (conj Hfailed (conj Htotal Hlist))).
Defined.

(** ** Processing a scanned card *)

Lemma processScan_already
    (env : Oracle) (w : Sys) (log : list Call) (scannedCardId : string)
    (pilgrim : Pilgrim) (target : Status) :
  scanningMode (store w) = mode target ->
  pilgrim_status pilgrim = target ->
  env log (lookup_call scannedCardId) = inr pilgrim ->
  run env (Store.processScan scannedCardId) w log =
  mkOutcome
    (Rejected (new_Error (AppError_string (already target))))
    (process_failed (new_Error (AppError_string (already target))) w)
    (log ++ [lookup_call scannedCardId]).
Proof.
  intros Hmode Hstatus Hreply. unfold lookup_call in *.
  simpl. rewrite Hreply. simpl. rewrite Hmode, Hstatus.
  destruct target; reflexivity.
Qed.

(** C3.  When the looked-up pilgrim's status is the session's mode, the
    scan is rejected with ALREADY_ONBOARD (mode onboard) or
    ALREADY_OFFBOARD (mode offboard); failedScans and totalScanned each
    grow by 1; the only Record Store call made is the lookup, so nothing
    is persisted; a second scan of the same card does the same again; the
    pilgrim list, the selected pilgrim and the other counters are
    untouched. *)
Theorem already_in_target_state_is_refused
    (env : Oracle) (w : Sys) (log : list Call) (scannedCardId : string)
    (pilgrim : Pilgrim) (target : Status) :
  scanningMode (store w) = mode target ->
  pilgrim_status pilgrim = target ->
  (forall history, env history (lookup_call scannedCardId) = inr pilgrim) ->
  let before := sessionStats (store w) in
  let first := run env (Store.processScan scannedCardId) w log in
  let second :=
    run env (Store.processScan scannedCardId) (final first) (calls first) in
  let kind := AppError_string (already target) in
  (result first = Rejected (new_Error kind) /\
   calls first = (log ++ [lookup_call scannedCardId])%list /\
   failedScans (sessionStats (store (final first))) = failedScans before + 1 /\
   totalScanned (sessionStats (store (final first)))
     = totalScanned before + 1 /\
   pilgrims (store (final first)) = pilgrims (store w)) /\
  (result second = Rejected (new_Error kind) /\
   calls second
     = (log ++ [lookup_call scannedCardId; lookup_call scannedCardId])%list /\
   failedScans (sessionStats (store (final second)))
     = failedScans before + 2 /\
   totalScanned (sessionStats (store (final second)))
     = totalScanned before + 2 /\
   pilgrims (store (final second)) = pilgrims (store w)) /\
  successfulScans (sessionStats (store (final second)))
    = successfulScans before /\
  onboardCount (sessionStats (store (final second))) = onboardCount before /\
  offboardCount (sessionStats (store (final second))) = offboardCount before /\
  selectedPilgrim (store (final second)) = selectedPilgrim (store w).
Proof.
  intros Hmode Hstatus Hreply. cbv zeta.
  rewrite (processScan_already env w log scannedCardId pilgrim target
             Hmode Hstatus (Hreply log)).
  cbn [final calls result].
  rewrite (processScan_already env _ _ scannedCardId pilgrim target); auto.
  cbn [final calls result].
  rewrite <- app_assoc. simpl.
  repeat split; lia.
Qed.

Lemma already_in_target_state_is_refused_witness :
  let first :=
    run (answering (working onboard)) (Store.processScan "A1") boarding [] in
  let second :=
    run (answering (working onboard)) (Store.processScan "A1")
        (final first) (calls first) in
  result first = Rejected (new_Error "ALREADY_ONBOARD") /\
  result second = Rejected (new_Error "ALREADY_ONBOARD") /\
  calls second = [lookup_call "A1"; lookup_call "A1"] /\
  failedScans (sessionStats (store (final second))) = 2 /\
  pilgrims (store (final second)) = [pilgrim_p1 onboard].
Proof.
  destruct (already_in_target_state_is_refused
              (answering (working onboard)) boarding [] "A1"
              (pilgrim_p1 onboard) onboard eq_refl eq_refl
              (fun _ => eq_refl))
    as ((Hfirst & _) & (Hsecond & Hcalls & Hfailed & _ & Hlist) & _).
  exact (conj Hfirst (conj Hsecond (conj Hcalls (conj Hfailed Hlist)))).
Defined.

(** C4.  When the lookup by card identifier is rejected: with HTTP status
    404 the Record Store client answers [null] and the scan is rejected
    with PILGRIM_NOT_FOUND; with any other rejection the client throws the
    normalised error (its code the HTTP status, or 0 when there was none)
    and the scan is rejected with that error.  Either way failedScans and
    totalScanned each grow by 1, the lookup is the only Record Store call,
    and nothing else of the session changes. *)
Theorem unknown_card_is_not_found
    (env : Oracle) (w : Sys) (log : list Call) (scannedCardId : string)
    (e : Thrown) :
  env log (lookup_call scannedCardId) = inl e ->
  let before := sessionStats (store w) in
  let looked :=
    run env (PocketBaseService.getPilgrimByNfcId scannedCardId) w log in
  let o := run env (Store.processScan scannedCardId) w log in
  let after := sessionStats (store (final o)) in
  (status e = Some 404 ->
     result looked = Fulfilled None /\
     result o = Rejected (new_Error (AppError_string PILGRIM_NOT_FOUND)) /\
     app_error (store (final o))
       = Some (Store.mapErrorMessage (Some "PILGRIM_NOT_FOUND"))) /\
  (status e <> Some 404 ->
     result looked = Rejected (PocketBaseService.handleError e) /\
     result o = Rejected (PocketBaseService.handleError e) /\
     code (PocketBaseService.handleError e)
       = (if Js.truthy_number (status e) then status e else Some 0)) /\
  calls o = (log ++ [lookup_call scannedCardId])%list /\
  failedScans after = failedScans before + 1 /\
  totalScanned after = totalScanned before + 1 /\
  successfulScans after = successfulScans before /\
  onboardCount after = onboardCount before /\
  offboardCount after = offboardCount before /\
  pilgrims (store (final o)) = pilgrims (store w) /\
  selectedPilgrim (store (final o)) = selectedPilgrim (store w).
Proof.
  intros Hreply. unfold lookup_call in *. simpl. rewrite Hreply. simpl.
  assert (Hnf : PocketBaseService.isNotFoundError e = true
                <-> status e = Some 404).
  { unfold PocketBaseService.isNotFoundError.
    destruct (status e) as [s |]; [| split; discriminate].
    rewrite Z.eqb_eq. split; congruence. }
  destruct (PocketBaseService.isNotFoundError e); simpl;
    repeat split; auto; try lia;
    try match goal with
        | H : status e <> Some 404 |- _ =>
            exfalso; apply H; apply Hnf; reflexivity
        | H : status e = Some 404 |- _ => apply Hnf in H; discriminate
        end.
  unfold PocketBaseService.handleError.
  destruct (Js.truthy_number (status e)); reflexivity.
Qed.

Lemma unknown_card_is_not_found_witness :
  let o := run unknown_card (Store.processScan "ZZ") boarding [] in
  result o = Rejected (new_Error "PILGRIM_NOT_FOUND") /\
  calls o = [lookup_call "ZZ"] /\
  failedScans (sessionStats (store (final o))) = 1 /\
  totalScanned (sessionStats (store (final o))) = 1.
Proof.
  destruct (unknown_card_is_not_found unknown_card boarding [] "ZZ" not_found
              eq_refl)
    as (H404 & _ & Hcalls & Hfailed & Htotal & _).
  destruct (H404 eq_refl) as (_ & Hres & _).
  exact (conj Hres (conj Hcalls (conj Hfailed Htotal))).
Defined.

(* ================================================================== *)
(** * The Card Reader adapter *)
(* ================================================================== *)

(** A scan whose tag request delivers no tag resolves with a failure
    result, ends with the reader released by [cancelTechnologyRequest], and
    has called nothing but the NFC manager. *)
Lemma scan_without_tag
    (env : Oracle) (w : Sys) (log : list Call) (how : Thrown + Race)
    (e : Thrown) :
  reader_ready env w ->
  request_settles env how ->
  thrown_by_request how = Some e ->
  run env NFCService.startScanning w log =
  mkOutcome (Fulfilled (failed_scan e (clock w)))
            (engaged w)
            (log ++ engage_calls w
                 ++ [request_call w; NfcManager_cancelTechnologyRequest]).
Proof.
  intros (Hloaded & Hsup & Hstart & Hen) Hreq Hthrown.
  unfold request_settles in Hreq.
  unfold engaged, engage_calls, request_call, NFCService.startScanning.
  destruct (isInitialized (service w)) eqn:Hinit;
    repeat (progress (simpl; rewrite ?Hloaded, ?Hinit, ?Hsup, ?Hstart, ?Hen,
                        ?Hreq)).
  all: destruct how as [e0 | [[t |] |]]; simpl in Hthrown; inversion Hthrown;
    subst; simpl; rewrite ?Hloaded; simpl;
    match goal with
    | |- context [?f ?h NfcManager_cancelTechnologyRequest] =>
        destruct (f h NfcManager_cancelTechnologyRequest)
    end; simpl;
    rewrite <- ?app_assoc; reflexivity.
Qed.

(** A scan whose tag request delivers a tag with a usable identifier. *)
Lemma scan_with_tag
    (env : Oracle) (w : Sys) (log : list Call) (tagInfo : TagInfo)
    (card : string) :
  reader_ready env w ->
  reads_card env tagInfo card ->
  run env NFCService.startScanning w log =
  mkOutcome (Fulfilled (read_scan card (clock w)))
            (engaged w)
            (log ++ engage_calls w
                 ++ [request_call w; NfcManager_getTag; Tag_identifier tagInfo;
                     NfcManager_cancelTechnologyRequest]).
Proof.
  intros (Hloaded & Hsup & Hstart & Hen) ([tech Hreq] & Htag & Hid & Hcard).
  unfold request_settles in Hreq.
  unfold engaged, engage_calls, request_call, NFCService.startScanning.
  apply String.eqb_neq in Hcard.
  destruct (isInitialized (service w)) eqn:Hinit;
    repeat (progress (simpl; rewrite ?Hloaded, ?Hinit, ?Hsup, ?Hstart, ?Hen,
                        ?Hreq, ?Htag, ?Hid, ?Hcard)).
  all: match goal with
       | |- context [?f ?h NfcManager_cancelTechnologyRequest] =>
           destruct (f h NfcManager_cancelTechnologyRequest)
       end; simpl; rewrite <- ?app_assoc; reflexivity.
Qed.

Lemma reader_ready_scanning env requested w :
  reader_ready env w -> reader_ready env (scanning requested w).
Proof. exact (fun H => H). Qed.

(** The store's [startScanning] over such a scan: the failure is recorded
    once. *)
Lemma startScanning_without_tag
    (env : Oracle) (w : Sys) (log : list Call) (requested : Status)
    (how : Thrown + Race) (e : Thrown) :
  reader_ready env w ->
  request_settles env how ->
  thrown_by_request how = Some e ->
  let o := run env (Store.startScanning requested) w log in
  let kind := AppError_string (NFCService.mapErrorToMessage e) in
  result o = Fulfilled tt /\
  calls o = (log ++ engage_calls w
                 ++ [request_call w; NfcManager_cancelTechnologyRequest])%list /\
  sessionStats (store (final o)) = Store.incr_failed (sessionStats (store w)) /\
  app_error (store (final o)) = Some kind /\
  nfc_lastScanResult (nfc (store (final o)))
    = Some (failed_scan e (clock w)) /\
  nfc_isScanning (nfc (store (final o))) = false /\
  scanningMode (store (final o)) = mode requested /\
  pilgrims (store (final o)) = pilgrims (store w) /\
  selectedPilgrim (store (final o)) = selectedPilgrim (store w).
Proof.
  intros Hready Hreq Hthrown. cbv zeta.
  unfold Store.startScanning.
  rewrite run_bind. simpl (run env (Store.set _) _ _).
  cbn [result final calls].
  rewrite run_try_catch, run_bind.
  change (set_store (set_error None _) w) with (scanning requested w).
  rewrite (scan_without_tag env _ log how e
             (reader_ready_scanning env requested w Hready) Hreq Hthrown).
  unfold engaged, engage_calls, request_call, Store.incr_failed.
  destruct (isInitialized (service (scanning requested w))) eqn:Hinit;
    simpl in Hinit; rewrite Hinit; unfold failed_scan;
    destruct (NFCService.mapErrorToMessage e); simpl; repeat split;
    reflexivity.
Qed.

(** C8.  In a session started for offboard, on a device whose reader can
    be engaged, a scan whose timer fires first resolves with
    [{success: false, error: 'SCAN_TIMEOUT'}] and no card identifier; the
    store then holds failedScans = 1 and totalScanned = 1, the other
    counters at 0; and the calls made are the NFC manager's only: none
    goes to the Record Store. *)
Theorem timed_out_scan_counts_one_failure
    (env : Oracle) (w0 : Sys) (log : list Call) :
  reader_ready env w0 ->
  request_settles env (inr TimerFired) ->
  let w := final (run env (Store.startSession offboard) w0 log) in
  let scan := run env NFCService.startScanning w log in
  let o := run env (Store.startScanning offboard) w log in
  let after := sessionStats (store (final o)) in
  let made :=
    (engage_calls w0
       ++ [request_call w0; NfcManager_cancelTechnologyRequest])%list in
  result scan = Fulfilled {| success := false;
                             cardId := None;
                             error := Some (AppError_string SCAN_TIMEOUT);
                             timestamp := clock w0 |} /\
  failedScans after = 1 /\
  totalScanned after = 1 /\
  successfulScans after = 0 /\
  onboardCount after = 0 /\
  offboardCount after = 0 /\
  app_error (store (final o)) = Some (AppError_string SCAN_TIMEOUT) /\
  nfc_isScanning (nfc (store (final o))) = false /\
  calls o = (log ++ made)%list /\
  Forall (fun c => is_record_store_call c = false) made.
Proof.
  intros Hready Hreq. cbv zeta.
  assert (Hw : reader_ready env
                 (final (run env (Store.startSession offboard) w0 log)))
    by exact Hready.
  pose proof (scan_without_tag env _ log (inr TimerFired)
                NFCService.createScanTimeout Hw Hreq eq_refl) as Hscan.
  pose proof (startScanning_without_tag env _ log offboard (inr TimerFired)
                NFCService.createScanTimeout Hw Hreq eq_refl) as Hstore.
  cbv zeta in Hstore.
  destruct Hstore as (_ & Hcalls & Hstats & Herr & _ & Hscanning & _).
  rewrite Hscan, Hstats, Herr, Hscanning, Hcalls.
  simpl. repeat split.
  unfold engage_calls. destruct (isInitialized (service w0));
    repeat constructor.
Qed.

Lemma reader_ready_timing_out : reader_ready timing_out launched.
Proof. repeat split. Qed.

Lemma timed_out_scan_counts_one_failure_witness :
  let w := final (run timing_out (Store.startSession offboard) launched []) in
  let o := run timing_out (Store.startScanning offboard) w [] in
  result (run timing_out NFCService.startScanning w [])
    = Fulfilled {| success := false;
                   cardId := None;
                   error := Some "SCAN_TIMEOUT";
                   timestamp := 1000 |} /\
  failedScans (sessionStats (store (final o))) = 1 /\
  totalScanned (sessionStats (store (final o))) = 1 /\
  calls o = [NfcManager_isSupported; NfcManager_start; NfcManager_isEnabled;
             request_call launched; NfcManager_cancelTechnologyRequest].
Proof.
  destruct (timed_out_scan_counts_one_failure timing_out launched []
              reader_ready_timing_out (fun _ _ _ => eq_refl))
    as (Hscan & Hfailed & Htotal & _ & _ & _ & _ & _ & Hcalls & _).
  exact (conj Hscan (conj Hfailed (conj Htotal Hcalls))).
Defined.

(** ** Cancelled scans *)

Lemma cancelled_maps_to_timeout (e : Thrown) :
  Js.includes "cancelled" (NFCService.errorMessage_of e) = true
  \/ Js.includes "canceled" (NFCService.errorMessage_of e) = true ->
  Js.includes "NFC_NOT_SUPPORTED" (NFCService.errorMessage_of e) = false ->
  Js.includes "NFC_DISABLED" (NFCService.errorMessage_of e) = false ->
  Js.includes "INVALID_CARD" (NFCService.errorMessage_of e) = false ->
  NFCService.mapErrorToMessage e = SCAN_TIMEOUT.
Proof.
  intros Hcancel H1 H2 H3. unfold NFCService.mapErrorToMessage. cbv zeta.
  rewrite H1, H2, H3.
  destruct (Js.includes "SCAN_TIMEOUT" (NFCService.errorMessage_of e)); auto.
  destruct Hcancel as [H | H]; rewrite H; auto.
  rewrite orb_true_r. reflexivity.
Qed.

(** C10, as the code has it.  When the tag request is rejected with an
    error whose text contains "cancelled" or "canceled" and none of
    NFC_NOT_SUPPORTED, NFC_DISABLED and INVALID_CARD (which are looked for
    first), the scan resolves with the failure SCAN_TIMEOUT, the very
    result of a scan whose timer fired; and the store's startScanning
    counts it as a failed attempt: failedScans and totalScanned each grow
    by 1. *)
Theorem cancelled_scan_reads_as_timeout
    (env timer : Oracle) (w : Sys) (log : list Call) (requested : Status)
    (e : Thrown) :
  Js.includes "cancelled" (NFCService.errorMessage_of e) = true
  \/ Js.includes "canceled" (NFCService.errorMessage_of e) = true ->
  Js.includes "NFC_NOT_SUPPORTED" (NFCService.errorMessage_of e) = false ->
  Js.includes "NFC_DISABLED" (NFCService.errorMessage_of e) = false ->
  Js.includes "INVALID_CARD" (NFCService.errorMessage_of e) = false ->
  reader_ready env w ->
  request_settles env (inl e) ->
  reader_ready timer w ->
  request_settles timer (inr TimerFired) ->
  let scan := run env NFCService.startScanning w log in
  let o := run env (Store.startScanning requested) w log in
  NFCService.mapErrorToMessage e = SCAN_TIMEOUT /\
  result scan = Fulfilled {| success := false;
                             cardId := None;
                             error := Some (AppError_string SCAN_TIMEOUT);
                             timestamp := clock w |} /\
  result scan = result (run timer NFCService.startScanning w log) /\
  failedScans (sessionStats (store (final o)))
    = failedScans (sessionStats (store w)) + 1 /\
  totalScanned (sessionStats (store (final o)))
    = totalScanned (sessionStats (store w)) + 1 /\
  app_error (store (final o)) = Some (AppError_string SCAN_TIMEOUT).
Proof.
  intros Hcancel H1 H2 H3 Hready Hreq Hready' Hreq'. cbv zeta.
  pose proof (cancelled_maps_to_timeout e Hcancel H1 H2 H3) as Hmap.
  rewrite (scan_without_tag env w log (inl e) e Hready Hreq eq_refl).
  rewrite (scan_without_tag timer w log (inr TimerFired)
             NFCService.createScanTimeout Hready' Hreq' eq_refl).
  destruct (startScanning_without_tag env w log requested (inl e) e
              Hready Hreq eq_refl)
    as (_ & _ & Hstats & Herr & _).
  rewrite Hstats, Herr. unfold failed_scan. rewrite Hmap.
  simpl. repeat split.
Qed.

Lemma reader_ready_cancelling : reader_ready cancelling launched.
Proof. repeat split. Qed.

Lemma cancelled_scan_reads_as_timeout_witness :
  let o := run cancelling (Store.startScanning onboard) launched [] in
  result (run cancelling NFCService.startScanning launched [])
    = Fulfilled {| success := false;
                   cardId := None;
                   error := Some "SCAN_TIMEOUT";
                   timestamp := 1000 |} /\
  failedScans (sessionStats (store (final o))) = 1 /\
  totalScanned (sessionStats (store (final o))) = 1.
Proof.
  destruct (cancelled_scan_reads_as_timeout cancelling timing_out launched []
              onboard cancelled_by_user (or_introl eq_refl) eq_refl eq_refl
              eq_refl reader_ready_cancelling (fun _ _ _ => eq_refl)
              reader_ready_timing_out (fun _ _ _ => eq_refl))
    as (_ & Hscan & _ & Hfailed & Htotal & _).
  exact (conj Hscan (conj Hfailed Htotal)).
Defined.

(** C10 without the proviso fails: a rejection whose text contains
    "cancelled" and also NFC_DISABLED is reported as NFC_DISABLED, not as
    SCAN_TIMEOUT. *)
Lemma cancelled_scan_not_always_timeout :
  let env :=
    answering (with_requestTechnology (inl cancelled_while_disabled)
                                      (working offboard)) in
  Js.includes "cancelled" (NFCService.errorMessage_of cancelled_while_disabled)
    = true /\
  result (run env NFCService.startScanning launched [])
    = Fulfilled {| success := false;
                   cardId := None;
                   error := Some (AppError_string NFC_DISABLED);
                   timestamp := 1000 |} /\
  result (run env NFCService.startScanning launched [])
    <> Fulfilled {| success := false;
                    cardId := None;
                    error := Some (AppError_string SCAN_TIMEOUT);
                    timestamp := 1000 |}.
Proof.
  cbv zeta. split; [reflexivity | split; [reflexivity | ]].
  intros H. vm_compute in H. discriminate H.
Qed.

(* ================================================================== *)
(** * What an action can return and throw *)
(* ================================================================== *)

Lemma outcomes_weaken {A : Type} (Q Q' : A -> Prop) (E E' : Thrown -> Prop)
    (m : Async A) :
  (forall a, Q a -> Q' a) -> (forall e, E e -> E' e) ->
  outcomes Q E m -> outcomes Q' E' m.
Proof.
  intros HQ HE.
  induction m as [a | e | k IH | g k IH | c k IH]; simpl; auto.
Qed.

Lemma outcomes_bind {A B : Type} (P : A -> Prop) (Q : B -> Prop)
    (E : Thrown -> Prop) (m : Async A) (f : A -> Async B) :
  outcomes P E m -> (forall a, P a -> outcomes Q E (f a)) ->
  outcomes Q E (bind m f).
Proof.
  intros Hm Hf.
  induction m as [a | e | k IH | g k IH | c k IH]; simpl in *; auto.
Qed.

Lemma outcomes_try_catch {A : Type} (Q : A -> Prop) (E' E : Thrown -> Prop)
    (m : Async A) (h : Thrown -> Async A) :
  outcomes Q E' m -> (forall e, E' e -> outcomes Q E (h e)) ->
  outcomes Q E (try_catch m h).
Proof.
  intros Hm Hh.
  induction m as [a | e | k IH | g k IH | c k IH]; simpl in *; auto.
Qed.

Lemma outcomes_try_finally {A : Type} (Q : A -> Prop) (E : Thrown -> Prop)
    (m : Async A) (fin : Async unit) :
  outcomes Q E m -> outcomes anything nothing fin ->
  outcomes Q E (try_finally m fin).
Proof.
  intros Hm Hfin.
  induction m as [a | e | k IH | g k IH | c k IH]; simpl in *; auto.
  - apply outcomes_bind with (P := anything); auto.
    eapply outcomes_weaken; [| | exact Hfin]; auto. intros e [].
  - apply outcomes_bind with (P := anything); simpl; auto.
    eapply outcomes_weaken; [| | exact Hfin]; auto. intros e' [].
Qed.

Lemma run_outcomes {A : Type} (Q : A -> Prop) (E : Thrown -> Prop)
    (env : Oracle) (m : Async A) :
  outcomes Q E m ->
  forall w log,
    match result (run env m w log) with
    | Fulfilled a => Q a
    | Rejected e => E e
    end.
Proof.
  induction m as [a | e | k IH | g k IH | c k IH]; simpl; intros Hm w log;
    auto; apply IH; auto.
Qed.

Lemma stopScanning_never_throws :
  outcomes anything nothing NFCService.stopScanning.
Proof.
  unfold NFCService.stopScanning.
  apply outcomes_try_catch with (E' := anything); [| intros; exact I].
  apply outcomes_bind with (P := anything); [intros w; exact I |].
  intros self _. destruct (negb (NfcManager_loaded self)); [exact I |].
  intros [e | []]; exact I.
Qed.

Lemma initialize_never_throws :
  outcomes anything nothing NFCService.initialize.
Proof.
  unfold NFCService.initialize.
  apply outcomes_try_catch with (E' := anything); [| intros; exact I].
  apply outcomes_bind with (P := anything); [intros w; exact I |].
  intros self _. destruct (negb (NfcManager_loaded self)); [exact I |].
  intros [e | supported]; simpl; [exact I |].
  destruct (negb supported); simpl; [exact I |].
  intros [e | []]; simpl; exact I.
Qed.

Lemma isEnabled_never_throws :
  outcomes anything nothing NFCService.isEnabled.
Proof.
  unfold NFCService.isEnabled.
  apply outcomes_try_catch with (E' := anything); [| intros; exact I].
  apply outcomes_bind with (P := anything); [intros w; exact I |].
  intros self _. destruct (negb (NfcManager_loaded self)); [exact I |].
  apply outcomes_bind with (P := anything).
  - destruct (negb (isInitialized self)); [| exact I].
    apply outcomes_bind with (P := anything); [| intros; exact I].
    eapply outcomes_weaken; [| | exact initialize_never_throws]; auto.
    intros e [].
  - intros _ _. intros [e | b]; exact I.
Qed.

Lemma extractCardId_never_throws tagInfo :
  outcomes anything nothing (NFCService.extractCardId tagInfo).
Proof.
  unfold NFCService.extractCardId.
  apply outcomes_try_catch with (E' := anything); [| intros; exact I].
  intros [e | r]; exact I.
Qed.

Lemma scan_resolves_well_formed :
  outcomes well_formed nothing NFCService.startScanning.
Proof.
  unfold NFCService.startScanning.
  apply outcomes_try_finally; [| exact stopScanning_never_throws].
  apply outcomes_try_catch with (E' := anything).
  2: { intros e _ w. simpl. unfold well_formed. simpl. eauto. }
  apply outcomes_bind with (P := anything); [intros w; exact I |].
  intros self _. destruct (negb (NfcManager_loaded self)); [exact I |].
  apply outcomes_bind with (P := anything).
  { destruct (negb (isInitialized self)); [| exact I].
    apply outcomes_bind with (P := anything).
    - eapply outcomes_weaken; [| | exact initialize_never_throws]; auto.
      intros e [].
    - intros initialized _. destruct (negb initialized); exact I. }
  intros _ _.
  apply outcomes_bind with (P := anything).
  { eapply outcomes_weaken; [| | exact isEnabled_never_throws]; auto.
    intros e []. }
  intros enabled _. destruct (negb enabled); [exact I |].
  apply outcomes_bind with (P := anything); [intros w; exact I |].
  intros w _. cbv zeta.
  apply outcomes_bind with (P := anything); [intros [e | r]; exact I |].
  intros [[tech |] |] _; try exact I.
  apply outcomes_bind with (P := anything); [intros [e | r]; exact I |].
  intros tagInfo _.
  apply outcomes_bind with (P := anything).
  { eapply outcomes_weaken; [| | exact (extractCardId_never_throws tagInfo)];
      auto. intros e []. }
  intros [card |] _; [| exact I].
  destruct (String.eqb_spec card ""); [exact I |].
  intros w'. simpl. unfold well_formed. simpl. split; eauto.
Qed.

(** Whatever the NFC manager does, a scan resolves, never rejects, and its
    result has exactly one of the card identifier and the error kind. *)
Theorem every_scan_resolves_well_formed
    (env : Oracle) (w : Sys) (log : list Call) :
  exists r, result (run env NFCService.startScanning w log) = Fulfilled r
            /\ well_formed r.
Proof.
  pose proof (run_outcomes well_formed nothing env NFCService.startScanning
                scan_resolves_well_formed w log) as H.
  destruct (result (run env NFCService.startScanning w log)) as [r | e].
  - eauto.
  - destruct H.
Qed.

(** Whatever happens in a cycle, the store's [startScanning] resolves:
    every failure is caught at its boundary. *)
Lemma startScanning_never_throws (requested : Status) :
  outcomes anything nothing (Store.startScanning requested).
Proof.
  unfold Store.startScanning.
  apply outcomes_bind with (P := anything); [exact I |].
  intros _ _.
  apply outcomes_try_catch with (E' := anything); [| intros; exact I].
  apply outcomes_bind with (P := anything).
  { eapply outcomes_weaken; [| | exact scan_resolves_well_formed];
      intros; exact I. }
  intros scanResult _.
  apply outcomes_bind with (P := anything); [exact I |].
  intros _ _.
  assert (Hany : forall m : Async unit, outcomes anything anything m).
  { induction m; simpl; auto; exact I. }
  apply Hany.
Qed.

(* ================================================================== *)
(** * Cancel and session end *)
(* ================================================================== *)

(** C7, as the code has it.  [stopScanning] (the user's cancel) resolves,
    sets the mode to idle and isScanning to false, calls the NFC manager's
    cancelTechnologyRequest (whenever the manager is loaded) and leaves
    the session statistics as they were.  [endSession] sets the mode to
    idle and isScanning to false, stamps endTime with the current time,
    changes nothing else of the statistics, and calls nothing: releasing
    the reader is left to [stopScanning] and to the service's [cleanup],
    which calls cancelTechnologyRequest likewise. *)
Theorem cancel_and_end_return_to_idle
    (env : Oracle) (w : Sys) (log : list Call) :
  let cancelled := run env Store.stopScanning w log in
  let ended := run env Store.endSession w log in
  let cleaned := run env NFCService.cleanup w log in
  (result cancelled = Fulfilled tt /\
   scanningMode (store (final cancelled)) = idle /\
   nfc_isScanning (nfc (store (final cancelled))) = false /\
   sessionStats (store (final cancelled)) = sessionStats (store w) /\
   calls cancelled
     = (log ++ if NfcManager_loaded (service w)
               then [NfcManager_cancelTechnologyRequest] else [])%list) /\
  (result ended = Fulfilled tt /\
   scanningMode (store (final ended)) = idle /\
   nfc_isScanning (nfc (store (final ended))) = false /\
   sessionStats (store (final ended))
     = set_endTime (Some (clock w)) (sessionStats (store w)) /\
   calls ended = log) /\
  (store (final cleaned) = store w /\
   calls cleaned
     = (log ++ if NfcManager_loaded (service w)
               then [NfcManager_cancelTechnologyRequest] else [])%list).
Proof.
  cbv zeta. split; [| split].
  - simpl. destruct (NfcManager_loaded (service w)); simpl.
    + destruct (env log NfcManager_cancelTechnologyRequest); simpl;
        repeat split; reflexivity.
    + rewrite app_nil_r. repeat split; reflexivity.
  - simpl. repeat split; reflexivity.
  - simpl. destruct (NfcManager_loaded (service w)); simpl.
    + destruct (env log NfcManager_cancelTechnologyRequest); simpl;
        destruct (isInitialized (service w)); simpl; split; reflexivity.
    + rewrite app_nil_r.
      destruct (isInitialized (service w)); simpl; split; reflexivity.
Qed.

(** C7 as the specification states it fails: with a scan in flight,
    [endSession] makes no call at all, so the reader's cancel is not
    invoked; [stopScanning] from the same state does invoke it. *)
Lemma endSession_leaves_reader_engaged :
  let env := answering (working offboard) in
  nfc_isScanning (nfc (store scan_in_flight)) = true /\
  calls (run env Store.endSession scan_in_flight []) = [] /\
  ~ In NfcManager_cancelTechnologyRequest
       (calls (run env Store.endSession scan_in_flight [])) /\
  calls (run env Store.stopScanning scan_in_flight [])
    = [NfcManager_cancelTechnologyRequest].
Proof.
  cbv zeta. repeat split. intros H. exact H.
Qed.

(* ================================================================== *)
(** * A full cycle: scan, look up, validate, persist *)
(* ================================================================== *)

(** [startScanning] over a scan that read a card: what [processScan]
    does, and, when it rejects, the [catch] block on top of it. *)
Lemma startScanning_then_processScan
    (env : Oracle) (w : Sys) (log : list Call) (requested : Status)
    (tagInfo : TagInfo) (card : string) :
  reader_ready env w ->
  reads_card env tagInfo card ->
  let w1 := scanned (read_scan card (clock w)) (engaged (scanning requested w)) in
  let log1 :=
    (log ++ engage_calls w
         ++ [request_call w; NfcManager_getTag; Tag_identifier tagInfo;
             NfcManager_cancelTechnologyRequest])%list in
  let processed := run env (Store.processScan card) w1 log1 in
  run env (Store.startScanning requested) w log =
  match result processed with
  | Fulfilled _ => processed
  | Rejected e =>
      mkOutcome (Fulfilled tt) (scan_failed e (final processed))
                (calls processed)
  end.
Proof.
  intros Hready Hreads. cbv zeta.
  unfold Store.startScanning at 1.
  rewrite run_bind. simpl (run env (Store.set _) _ _).
  cbn [result final calls].
  rewrite run_try_catch, run_bind.
  change (set_store (set_error None _) w) with (scanning requested w).
  rewrite (scan_with_tag env _ log tagInfo card
             (reader_ready_scanning env requested w Hready) Hreads).
  cbn [result final calls].
  rewrite run_bind. simpl (run env (Store.set _) _ _).
  cbn [result final calls success cardId read_scan].
  destruct Hreads as (_ & _ & _ & Hcard). apply String.eqb_neq in Hcard.
  rewrite Hcard.
  change (engage_calls (scanning requested w)) with (engage_calls w).
  change (request_call (scanning requested w)) with (request_call w).
  change (clock (scanning requested w)) with (clock w).
  unfold scanned.
  match goal with
  | |- context [run env (Store.processScan card) ?a ?b] =>
      destruct (run env (Store.processScan card) a b) as [[[] | e] w' log']
  end; reflexivity.
Qed.

Lemma processScan_lookup_rejected
    (env : Oracle) (w : Sys) (log : list Call) (card : string) (e : Thrown) :
  env log (lookup_call card) = inl e ->
  let thrown :=
    if PocketBaseService.isNotFoundError e
    then new_Error "PILGRIM_NOT_FOUND"
    else PocketBaseService.handleError e in
  run env (Store.processScan card) w log =
  mkOutcome (Rejected thrown) (process_failed thrown w)
            (log ++ [lookup_call card]).
Proof.
  intros Hreply. unfold lookup_call in *. simpl. rewrite Hreply. simpl.
  destruct (PocketBaseService.isNotFoundError e); reflexivity.
Qed.

Lemma updatePilgrimStatus_rejected
    (env : Oracle) (w : Sys) (log : list Call) (pilgrimId : string)
    (target : ScanningMode) (e : Thrown) :
  env log (Pb_update pilgrimId target) = inl e ->
  run env (Store.updatePilgrimStatus pilgrimId target) w log =
  mkOutcome (Rejected (PocketBaseService.handleError e))
            (persist_failed (PocketBaseService.handleError e) w)
            (log ++ [Pb_update pilgrimId target]).
Proof.
  intros Hreply. simpl. rewrite Hreply. reflexivity.
Qed.

(** [processScan] over a pilgrim that passes the check: what
    [updatePilgrimStatus] does with the session's mode as the new status,
    and, when it rejects, the [catch] block on top of it. *)
Lemma processScan_then_updatePilgrimStatus
    (env : Oracle) (w : Sys) (log : list Call) (card : string)
    (pilgrim : Pilgrim) :
  env log (lookup_call card) = inr pilgrim ->
  already_in_target (scanningMode (store w)) (pilgrim_status pilgrim) = false ->
  let persisted :=
    run env (Store.updatePilgrimStatus (id pilgrim) (scanningMode (store w)))
        w (log ++ [lookup_call card]) in
  run env (Store.processScan card) w log =
  match result persisted with
  | Fulfilled _ =>
      mkOutcome (Fulfilled tt)
                (set_store (set_selectedPilgrim (Some pilgrim)
                              (store (final persisted)))
                           (final persisted))
                (calls persisted)
  | Rejected e =>
      mkOutcome (Rejected e) (process_failed e (final persisted))
                (calls persisted)
  end.
Proof.
  intros Hreply Hok. cbv zeta. unfold already_in_target in Hok.
  apply orb_false_elim in Hok. destruct Hok as [Hon Hoff].
  unfold lookup_call in *. simpl. rewrite Hreply. simpl. rewrite Hon, Hoff.
  simpl.
  destruct (env (log ++ [Pb_getFirstListItem
                           (PocketBaseService.nfc_filter card)])%list
                (Pb_update (id pilgrim) (scanningMode (store w))));
    reflexivity.
Qed.

(** Nothing in [processScan] stops an idle session: the pilgrim passes
    the check whatever its status. *)
Lemma idle_passes_the_check (current : Status) :
  already_in_target idle current = false.
Proof. destruct current; reflexivity. Qed.

Lemma stats_of_scanned r requested w :
  sessionStats (store (scanned r (engaged (scanning requested w))))
  = sessionStats (store w).
Proof.
  unfold scanned, engaged.
  destruct (isInitialized (service (scanning requested w))); reflexivity.
Qed.

Lemma mode_of_scanned r requested w :
  scanningMode (store (scanned r (engaged (scanning requested w))))
  = mode requested.
Proof.
  unfold scanned, engaged.
  destruct (isInitialized (service (scanning requested w))); reflexivity.
Qed.

(** ** How often a failed cycle is counted *)

(** A lookup that fails, for an unknown card or for a network or server
    error, is counted by [processScan] and again by [startScanning]. *)
Lemma lookup_failure_counted_twice
    (env : Oracle) (w : Sys) (log : list Call) (requested : Status)
    (tagInfo : TagInfo) (card : string) (e : Thrown) :
  reader_ready env w ->
  reads_card env tagInfo card ->
  (forall history, env history (lookup_call card) = inl e) ->
  let o := run env (Store.startScanning requested) w log in
  result o = Fulfilled tt /\
  failedScans (sessionStats (store (final o)))
    = failedScans (sessionStats (store w)) + 2 /\
  totalScanned (sessionStats (store (final o)))
    = totalScanned (sessionStats (store w)) + 2.
Proof.
  intros Hready Hreads Hreply. cbv zeta.
  rewrite (startScanning_then_processScan env w log requested tagInfo card
             Hready Hreads).
  cbv zeta.
  rewrite (processScan_lookup_rejected env _ _ card e (Hreply _)).
  cbn [result final calls].
  unfold scan_failed, process_failed. cbn -[scanned engaged scanning].
  rewrite stats_of_scanned. repeat split; lia.
Qed.

(** X25.  In a cycle whose card resolves to a pilgrim already in the
    requested state, the failure is counted by [processScan] and again by
    [startScanning]: failedScans and totalScanned each go up by two. *)
Lemma already_counted_twice
    (env : Oracle) (w : Sys) (log : list Call) (requested : Status)
    (tagInfo : TagInfo) (card : string) (pilgrim : Pilgrim) :
  reader_ready env w ->
  reads_card env tagInfo card ->
  (forall history, env history (lookup_call card) = inr pilgrim) ->
  pilgrim_status pilgrim = requested ->
  let o := run env (Store.startScanning requested) w log in
  result o = Fulfilled tt /\
  failedScans (sessionStats (store (final o)))
    = failedScans (sessionStats (store w)) + 2 /\
  totalScanned (sessionStats (store (final o)))
    = totalScanned (sessionStats (store w)) + 2.
Proof.
  intros Hready Hreads Hreply Hstatus. cbv zeta.
  rewrite (startScanning_then_processScan env w log requested tagInfo card
             Hready Hreads).
  cbv zeta.
  rewrite (processScan_already env _ _ card pilgrim requested
             (mode_of_scanned _ _ _) Hstatus (Hreply _)).
  cbn [result final calls].
  unfold scan_failed, process_failed. cbn -[scanned engaged scanning].
  rewrite stats_of_scanned. repeat split; lia.
Qed.

(** X26.  In a cycle whose persist fails, the failure is counted by
    [updatePilgrimStatus], again by [processScan], and again by
    [startScanning]: failedScans and totalScanned each go up by three; the
    error field ends up with the normalised error's message. *)
Lemma persist_failure_counted_three_times
    (env : Oracle) (w : Sys) (log : list Call) (requested : Status)
    (tagInfo : TagInfo) (card : string) (pilgrim : Pilgrim) (e : Thrown) :
  reader_ready env w ->
  reads_card env tagInfo card ->
  (forall history, env history (lookup_call card) = inr pilgrim) ->
  pilgrim_status pilgrim <> requested ->
  (forall history, env history (Pb_update (id pilgrim) requested) = inl e) ->
  let o := run env (Store.startScanning requested) w log in
  result o = Fulfilled tt /\
  failedScans (sessionStats (store (final o)))
    = failedScans (sessionStats (store w)) + 3 /\
  totalScanned (sessionStats (store (final o)))
    = totalScanned (sessionStats (store w)) + 3 /\
  app_error (store (final o)) = message (PocketBaseService.handleError e).
Proof.
  intros Hready Hreads Hreply Hstatus Hpersist. cbv zeta.
  rewrite (startScanning_then_processScan env w log requested tagInfo card
             Hready Hreads).
  cbv zeta.
  rewrite (processScan_then_updatePilgrimStatus env _ _ card pilgrim
             (Hreply _)).
  2: { rewrite mode_of_scanned. unfold already_in_target.
       destruct requested, (pilgrim_status pilgrim); simpl; congruence. }
  cbv zeta. rewrite mode_of_scanned.
  rewrite (updatePilgrimStatus_rejected env _ _ (id pilgrim) requested e
             (Hpersist _)).
  cbn [result final calls].
  unfold scan_failed, process_failed, persist_failed.
  cbn -[scanned engaged scanning PocketBaseService.handleError].
  rewrite stats_of_scanned.
  destruct (handleError_message e) as [msg [Hmsg Hne]].
  rewrite Hmsg, (or_else_Some _ _ Hne). repeat split; lia.
Qed.

(** X24.  A cycle whose persist succeeds is counted once, by
    [updatePilgrimStatus]; neither [processScan] nor [startScanning] adds
    to it.  The selected pilgrim is the record as it was looked up, before
    the update, and the error field is empty. *)
Lemma persist_success_counted_once
    (env : Oracle) (w : Sys) (log : list Call) (requested : Status)
    (tagInfo : TagInfo) (card : string) (pilgrim updated : Pilgrim) :
  reader_ready env w ->
  reads_card env tagInfo card ->
  (forall history, env history (lookup_call card) = inr pilgrim) ->
  pilgrim_status pilgrim <> requested ->
  (forall history,
     env history (Pb_update (id pilgrim) requested) = inr updated) ->
  let o := run env (Store.startScanning requested) w log in
  result o = Fulfilled tt /\
  sessionStats (store (final o))
    = count_success requested (sessionStats (store w)) /\
  selectedPilgrim (store (final o)) = Some pilgrim /\
  app_error (store (final o)) = None.
Proof.
  intros Hready Hreads Hreply Hstatus Hpersist. cbv zeta.
  rewrite (startScanning_then_processScan env w log requested tagInfo card
             Hready Hreads).
  cbv zeta.
  rewrite (processScan_then_updatePilgrimStatus env _ _ card pilgrim
             (Hreply _)).
  2: { rewrite mode_of_scanned. unfold already_in_target.
       destruct requested, (pilgrim_status pilgrim); simpl; congruence. }
  cbv zeta. rewrite mode_of_scanned.
  unfold scanned, engaged.
  destruct (isInitialized (service (scanning requested w)));
    simpl; rewrite Hpersist; simpl;
    destruct (Store.findIndex _ _); destruct requested; repeat split.
Qed.

(** C2 fails on the code.  One cycle of a boarding session, from zero:
    the reader reads card ["A1"], the Record Store knows no such card.
    The cycle leaves failedScans = 2 and totalScanned = 2, where the
    specification counts the failure once. *)
Lemma unknown_card_counted_twice :
  let w := final (run unknown_card (Store.startSession onboard) launched []) in
  let o := run unknown_card (Store.startScanning onboard) w [] in
  totalScanned (sessionStats (store w)) = 0 /\
  failedScans (sessionStats (store w)) = 0 /\
  nfc_lastScanResult (nfc (store (final o)))
    = Some {| success := true; cardId := Some "A1"; error := None;
              timestamp := 1000 |} /\
  app_error (store (final o)) = Some "PILGRIM_NOT_FOUND" /\
  failedScans (sessionStats (store (final o))) = 2 /\
  totalScanned (sessionStats (store (final o))) = 2.
Proof. cbv zeta. repeat split. Qed.

(** The scenario of the specification: mode onboard, card ["A1"], the
    Record Store resolves an offboard pilgrim and accepts the update. *)
Example boarding_scan_succeeds :
  let env := answering (working offboard) in
  let w := final (run env (Store.startSession onboard) launched []) in
  let o := run env (Store.startScanning onboard) w [] in
  successfulScans (sessionStats (store (final o))) = 1 /\
  totalScanned (sessionStats (store (final o))) = 1 /\
  onboardCount (sessionStats (store (final o))) = 1 /\
  failedScans (sessionStats (store (final o))) = 0 /\
  offboardCount (sessionStats (store (final o))) = 0 /\
  selectedPilgrim (store (final o)) = Some (pilgrim_p1 offboard).
Proof. cbv zeta. repeat split. Qed.

(* ================================================================== *)
(** * Idle sessions *)
(* ================================================================== *)

(** X27.  With the mode idle, [processScan] of a known card goes through
    the check and asks the Record Store to persist the status [idle]; when
    the store accepts, the scan is counted as a successful offboard
    transition. *)
Lemma idle_scan_is_persisted
    (env : Oracle) (w : Sys) (log : list Call) (card : string)
    (pilgrim : Pilgrim) :
  scanningMode (store w) = idle ->
  env log (lookup_call card) = inr pilgrim ->
  let o := run env (Store.processScan card) w log in
  calls o = (log ++ [lookup_call card; Pb_update (id pilgrim) idle])%list /\
  (forall updated,
     env (log ++ [lookup_call card])%list (Pb_update (id pilgrim) idle)
       = inr updated ->
     result o = Fulfilled tt /\
     offboardCount (sessionStats (store (final o)))
       = offboardCount (sessionStats (store w)) + 1 /\
     successfulScans (sessionStats (store (final o)))
       = successfulScans (sessionStats (store w)) + 1).
Proof.
  intros Hmode Hreply. cbv zeta.
  rewrite (processScan_then_updatePilgrimStatus env w log card pilgrim Hreply)
    by (rewrite Hmode; apply idle_passes_the_check).
  cbv zeta. rewrite Hmode. simpl.
  destruct (env (log ++ [lookup_call card])%list (Pb_update (id pilgrim) idle))
    as [e | updated'] eqn:Hupdate; simpl; rewrite <- app_assoc; simpl.
  - split; [reflexivity | intros updated Hu; discriminate Hu].
  - split; [reflexivity |].
    intros updated Hu. destruct (Store.findIndex _ _); simpl; repeat split.
Qed.

(** C9 fails on the code.  In the state the app starts in, the mode is
    idle; [processScan] of card ["A1"], which the Record Store resolves,
    neither throws nor stops: it calls the Record Store's update with the
    status [idle] and, the store accepting, counts one successful scan and
    one offboard transition. *)
Lemma idle_scan_reaches_persist :
  let env := answering (working offboard) in
  let o := run env (Store.processScan "A1") launched [] in
  scanningMode (store launched) = idle /\
  result o = Fulfilled tt /\
  calls o = [lookup_call "A1"; Pb_update "p1" idle] /\
  offboardCount (sessionStats (store (final o))) = 1 /\
  successfulScans (sessionStats (store (final o))) = 1.
Proof. cbv zeta. repeat split. Qed.

(* ================================================================== *)
(** * Schedules of the event loop *)
(* ================================================================== *)

Lemma reachable_trans (a b c : Loop) :
  reachable a b -> reachable b c -> reachable a c.
Proof.
  intros Hab Hbc. induction Hbc; eauto using reachable.
Qed.

Lemma advance_reachable (m : Async unit) :
  forall w log pre post,
    reachable (mkLoop w (pre ++ Ready m :: post) log)
              (park pre post (advance m w log)).
Proof.
  induction m as [[] | e | k IH | f k IH | c k IH]; intros w log pre post;
    simpl.
  - eapply reach_step; [apply reach_start | apply step_return].
  - eapply reach_step; [apply reach_start | apply step_unhandled].
  - eapply reachable_trans; [| apply IH].
    eapply reach_step; [apply reach_start | apply step_get].
  - eapply reachable_trans; [| apply IH].
    eapply reach_step; [apply reach_start | apply step_set].
  - eapply reach_step; [apply reach_start | apply step_issue].
Qed.

Lemma invoke_reachable (op : Op) (l : Loop) : reachable l (invoke op l).
Proof.
  destruct l as [w ts log]. unfold invoke. simpl.
  eapply reachable_trans.
  - eapply reach_step; [apply reach_start | apply (step_invoke op)].
  - apply advance_reachable.
Qed.

Lemma nth_error_split {A : Type} (l : list A) (i : nat) (x : A) :
  nth_error l i = Some x -> l = (firstn i l ++ x :: skipn (S i) l)%list.
Proof.
  revert i. induction l as [| y l IH]; intros [| i] H; simpl in *;
    try discriminate.
  - congruence.
  - f_equal. auto.
Qed.

Lemma resume_reachable (env : Oracle) (i : nat) (l : Loop) :
  reachable l (resume env i l).
Proof.
  destruct l as [w ts log]. unfold resume. simpl.
  destruct (nth_error ts i) as [[m | c k] |] eqn:Hnth; try apply reach_start.
  - rewrite (nth_error_split ts i _ Hnth) at 1. apply advance_reachable.
  - rewrite (nth_error_split ts i _ Hnth) at 1.
    eapply reachable_trans; [| apply advance_reachable].
    eapply reach_step; [apply reach_start | apply step_settle].
Qed.

(** Every schedule is a run of the event loop. *)
Lemma schedule_reachable (env : Oracle) (moves : list Move) :
  forall l, reachable l (schedule env moves l).
Proof.
  induction moves as [| [op | i] moves IH]; intros l; simpl.
  - apply reach_start.
  - eapply reachable_trans; [apply invoke_reachable | apply IH].
  - eapply reachable_trans; [apply resume_reachable | apply IH].
Qed.

(** The user cancels while the tag request is pending; the reader rejects
    the request; the scan's own failure handling then records one failed
    attempt in the session that was cancelled. *)
Lemma cancelled_scan_in_flight_is_counted :
  let env := cancellable (working offboard) in
  let in_flight := schedule env to_tag_request started in
  let cancelled := schedule env [Invoke stopScanning; Resume 1] in_flight in
  let settled := schedule env [Resume 0; Resume 0] cancelled in
  reachable started settled /\
  map awaited (tasks in_flight) = [Some (request_call launched)] /\
  (map awaited (tasks cancelled) = [Some (request_call launched)] /\
   scanningMode (store (world cancelled)) = idle /\
   failedScans (sessionStats (store (world cancelled))) = 0 /\
   totalScanned (sessionStats (store (world cancelled))) = 0) /\
  (tasks settled = [] /\
   scanningMode (store (world settled)) = idle /\
   app_error (store (world settled)) = Some "SCAN_TIMEOUT" /\
   failedScans (sessionStats (store (world settled))) = 1 /\
   totalScanned (sessionStats (store (world settled))) = 1).
Proof.
  cbv zeta. split.
  - eapply reachable_trans; [apply schedule_reachable |].
    eapply reachable_trans; apply schedule_reachable.
  - vm_compute. repeat split.
Qed.

(** The user ends the session while the tag request is pending; nothing
    cancels the request, the card is read, and the scan goes on in a
    session whose mode is now idle: the Record Store is asked to persist
    the status [idle], and the ended boarding session counts an offboard
    transition. *)
Lemma scan_outlives_ended_session :
  let env := cancellable (working offboard) in
  let in_flight := schedule env to_tag_request started in
  let ended := schedule env [Invoke endSession] in_flight in
  let settled :=
    schedule env [Resume 0; Resume 0; Resume 0; Resume 0; Resume 0; Resume 0]
             ended in
  reachable started settled /\
  (map awaited (tasks ended) = [Some (request_call launched)] /\
   scanningMode (store (world ended)) = idle /\
   endTime (sessionStats (store (world ended))) = Some 1000) /\
  (tasks settled = [] /\
   In (Pb_update "p1" idle) (made settled) /\
   offboardCount (sessionStats (store (world settled))) = 1 /\
   onboardCount (sessionStats (store (world settled))) = 0 /\
   successfulScans (sessionStats (store (world settled))) = 1).
Proof.
  cbv zeta. split.
  - eapply reachable_trans; [apply schedule_reachable |].
    eapply reachable_trans; apply schedule_reachable.
  - vm_compute. repeat split. auto 12.
Qed.

(* ================================================================== *)
(** * Every reply at once *)
(* ================================================================== *)

Lemma wp_mono {A : Type} (m : Async A)
    (Q Q' : Settled A -> Sys -> list Call -> Prop) :
  (forall r w log, Q r w log -> Q' r w log) ->
  forall w log, wp m Q w log -> wp m Q' w log.
Proof.
  intros HQ.
  induction m as [a | e | k IH | g k IH | c k IH]; simpl; intros w log H;
    auto.
Qed.

Lemma wp_bind {A B : Type} (m : Async A) (f : A -> Async B)
    (Q : Settled B -> Sys -> list Call -> Prop) :
  forall w log,
    wp m (fun r w' log' =>
            match r with
            | Fulfilled a => wp (f a) Q w' log'
            | Rejected e => Q (Rejected e) w' log'
            end) w log ->
    wp (bind m f) Q w log.
Proof.
  induction m as [a | e | k IH | g k IH | c k IH]; simpl; intros w log H;
    auto.
Qed.

Lemma wp_try_catch {A : Type} (m : Async A) (h : Thrown -> Async A)
    (Q : Settled A -> Sys -> list Call -> Prop) :
  forall w log,
    wp m (fun r w' log' =>
            match r with
            | Fulfilled a => Q (Fulfilled a) w' log'
            | Rejected e => wp (h e) Q w' log'
            end) w log ->
    wp (try_catch m h) Q w log.
Proof.
  induction m as [a | e | k IH | g k IH | c k IH]; simpl; intros w log H;
    auto.
Qed.

Lemma wp_try_finally {A : Type} (m : Async A) (fin : Async unit)
    (Q : Settled A -> Sys -> list Call -> Prop) :
  forall w log,
    wp m (fun r w' log' =>
            wp fin (fun r' w'' log'' =>
                      match r' with
                      | Fulfilled _ => Q r w'' log''
                      | Rejected e => Q (Rejected e) w'' log''
                      end) w' log') w log ->
    wp (try_finally m fin) Q w log.
Proof.
  induction m as [a | e | k IH | g k IH | c k IH]; simpl; intros w log H;
    auto.
  - apply wp_bind. revert H. apply wp_mono. intros [[] | e] w' log' H; exact H.
  - apply wp_bind. revert H. apply wp_mono. intros [[] | e'] w' log' H; exact H.
Qed.

(** What holds whatever the replies holds of the run against any one
    environment. *)
Lemma wp_run {A : Type} (env : Oracle) (m : Async A)
    (Q : Settled A -> Sys -> list Call -> Prop) :
  forall w log,
    wp m Q w log ->
    Q (result (run env m w log)) (final (run env m w log))
      (calls (run env m w log)).
Proof.
  induction m as [a | e | k IH | g k IH | c k IH]; simpl; intros w log H;
    auto.
Qed.

(** The calls of a run are the ones made before, followed by calls the
    program issues. *)
Lemma run_issues {A : Type} (P : Call -> Prop) (env : Oracle) (m : Async A) :
  issues P m ->
  forall w log,
    exists new, calls (run env m w log) = (log ++ new)%list /\ Forall P new.
Proof.
  induction m as [a | e | k IH | g k IH | c k IH]; simpl; intros Hm w log.
  - exists []. rewrite app_nil_r. auto.
  - exists []. rewrite app_nil_r. auto.
  - apply IH. apply Hm.
  - apply IH. apply Hm.
  - destruct Hm as [Hc Hk].
    destruct (IH (env log c) (Hk _) w (log ++ [c])%list) as [new [Heq Hall]].
    exists (c :: new). rewrite Heq, <- app_assoc. simpl. auto.
Qed.

Lemma issues_bind (P : Call -> Prop) {A B : Type} (m : Async A)
    (f : A -> Async B) :
  issues P m -> (forall a, issues P (f a)) -> issues P (bind m f).
Proof.
  intros Hm Hf.
  induction m as [a | e | k IH | g k IH | c k IH]; simpl in *; auto.
  destruct Hm; auto.
Qed.

Lemma issues_try_catch (P : Call -> Prop) {A : Type} (m : Async A)
    (h : Thrown -> Async A) :
  issues P m -> (forall e, issues P (h e)) -> issues P (try_catch m h).
Proof.
  intros Hm Hh.
  induction m as [a | e | k IH | g k IH | c k IH]; simpl in *; auto.
  destruct Hm; auto.
Qed.

Lemma issues_try_finally (P : Call -> Prop) {A : Type} (m : Async A)
    (fin : Async unit) :
  issues P m -> issues P fin -> issues P (try_finally m fin).
Proof.
  intros Hm Hfin.
  induction m as [a | e | k IH | g k IH | c k IH]; simpl in *; auto.
  - apply issues_bind; simpl; auto.
  - apply issues_bind; simpl; auto.
  - destruct Hm; auto.
Qed.

(** Proof search for [issues], along the program's structure; each call
    is left to [tac]. *)
Ltac only_issues tac :=
  intros; cbv beta;
  lazymatch goal with
  | |- True => exact Logic.I
  | |- issues _ (bind _ _) => apply issues_bind; only_issues tac
  | |- issues _ (try_catch _ _) => apply issues_try_catch; only_issues tac
  | |- issues _ (try_finally _ _) =>
      apply issues_try_finally; only_issues tac
  | |- issues _ (if ?b then _ else _) => destruct b; only_issues tac
  | |- issues _ (match ?x with _ => _ end) => destruct x; only_issues tac
  | |- issues _ (let _ := _ in _) => cbv zeta; only_issues tac
  | |- issues _ (Return _) => exact Logic.I
  | |- issues _ (Throw _) => exact Logic.I
  | |- issues _ (GetState _) => cbn [issues]; only_issues tac
  | |- issues _ (SetState _ _) => cbn [issues]; only_issues tac
  | |- issues _ (Await _ _) =>
      cbn [issues]; split; [cbv beta; tac | only_issues tac]
  | |- issues _ ?m => let h := head_of m in unfold h; only_issues tac
  end.

Lemma run_try_finally {A : Type} (env : Oracle) (m : Async A)
    (fin : Async unit) :
  forall w log,
    run env (try_finally m fin) w log =
    let o := run env m w log in
    let f := run env fin (final o) (calls o) in
    mkOutcome match result f with
              | Fulfilled _ => result o
              | Rejected e => Rejected e
              end
              (final f) (calls f).
Proof.
  induction m as [a | e | k IH | g k IH | c k IH]; simpl; intros w log; auto.
  - rewrite run_bind. destruct (run env fin w log) as [[[] | e] wf lf];
      reflexivity.
  - rewrite run_bind. destruct (run env fin w log) as [[[] | e'] wf lf];
      reflexivity.
Qed.

(* ================================================================== *)
(** * Card identifiers *)
(* ================================================================== *)

Lemma toUpperCase_app (a b : string) :
  JsText.toUpperCase (a ++ b) = JsText.toUpperCase a ++ JsText.toUpperCase b.
Proof. induction a as [| c a IH]; simpl; congruence. Qed.

Lemma bytesToHex_cons (byte : Z) (bytes : list Z) :
  NFCCard.bytesToHex (byte :: bytes)
  = hex_pair byte ++ NFCCard.bytesToHex bytes.
Proof. unfold NFCCard.bytesToHex. simpl. apply toUpperCase_app. Qed.

Lemma pairs_ok : forallb pair_ok (seq 0 256) = true.
Proof. vm_compute. reflexivity. Qed.

Lemma hex_pair_byte (byte : Z) :
  is_byte byte ->
  exists c1 c2,
    hex_pair byte = String c1 (String c2 EmptyString)
    /\ is_upper_hex c1 = true /\ is_upper_hex c2 = true
    /\ 16 * hex_value c1 + hex_value c2 = byte.
Proof.
  intros Hb. unfold is_byte in Hb.
  pose proof pairs_ok as H. rewrite forallb_forall in H.
  specialize (H (Z.to_nat byte)).
  assert (Hin : In (Z.to_nat byte) (seq 0 256)) by (apply in_seq; lia).
  specialize (H Hin). unfold pair_ok in H.
  rewrite Z2Nat.id in H by lia.
  destruct (hex_pair byte) as [| c1 [| c2 [| c3 s]]]; try discriminate.
  apply andb_true_iff in H. destruct H as [H Hv].
  apply andb_true_iff in H. destruct H as [H1 H2].
  apply Z.eqb_eq in Hv. eauto 8.
Qed.

Lemma bytesToHex_inj (a b : list Z) :
  Forall is_byte a -> Forall is_byte b ->
  NFCCard.bytesToHex a = NFCCard.bytesToHex b -> a = b.
Proof.
  intros Ha. revert b.
  induction Ha as [| x a Hx Ha IH]; intros b Hb Heq.
  - destruct Hb as [| y b Hy Hb]; [reflexivity |].
    rewrite bytesToHex_cons in Heq.
    destruct (hex_pair_byte y Hy) as (c1 & c2 & Hp & _). rewrite Hp in Heq.
    discriminate.
  - destruct Hb as [| y b Hy Hb].
    + rewrite bytesToHex_cons in Heq.
      destruct (hex_pair_byte x Hx) as (c1 & c2 & Hp & _). rewrite Hp in Heq.
      discriminate.
    + rewrite !bytesToHex_cons in Heq.
      destruct (hex_pair_byte x Hx) as (c1 & c2 & Hp & _ & _ & Hvx).
      destruct (hex_pair_byte y Hy) as (d1 & d2 & Hq & _ & _ & Hvy).
      rewrite Hp, Hq in Heq. simpl in Heq.
      injection Heq as E1 E2 Erest. subst d1 d2.
      f_equal; [congruence | auto].
Qed.

Lemma bytesToHex_shape (bytes : list Z) :
  Forall is_byte bytes ->
  String.length (NFCCard.bytesToHex bytes) = (2 * List.length bytes)%nat
  /\ string_forall is_upper_hex (NFCCard.bytesToHex bytes) = true.
Proof.
  induction 1 as [| x l Hx Hl [IHlen IHhex]]; [split; reflexivity |].
  rewrite bytesToHex_cons.
  destruct (hex_pair_byte x Hx) as (c1 & c2 & Hp & H1 & H2 & _).
  rewrite Hp. simpl. rewrite IHlen, IHhex, H1, H2. split; [lia | reflexivity].
Qed.


(** X1.  For arrays of bytes, [bytesToHex] writes two characters for each
    element, all of them digits or the letters A to F, and arrays that
    differ give texts that differ.  (Beyond bytes neither holds, as the
    example after it shows.) *)
Theorem byte_ids_give_distinct_identifiers (a b : list Z) :
  Forall is_byte a -> Forall is_byte b ->
  String.length (NFCCard.bytesToHex a) = (2 * List.length a)%nat /\
  string_forall is_upper_hex (NFCCard.bytesToHex a) = true /\
  (NFCCard.bytesToHex a = NFCCard.bytesToHex b -> a = b).
Proof.
  intros Ha Hb.
  destruct (bytesToHex_shape a Ha) as [Hlen Hhex].
  repeat split; auto using bytesToHex_inj.
Qed.

Lemma byte_ids_give_distinct_identifiers_witness :
  String.length (NFCCard.bytesToHex [4; 161; 255]) = 6%nat /\
  string_forall is_upper_hex (NFCCard.bytesToHex [4; 161; 255]) = true /\
  (NFCCard.bytesToHex [4; 161; 255] = NFCCard.bytesToHex [4; 161] ->
   [4; 161; 255] = [4; 161]).
Proof.
  apply (byte_ids_give_distinct_identifiers [4; 161; 255] [4; 161]);
    repeat (apply Forall_cons; [unfold is_byte; lia |]); apply Forall_nil.
Defined.

Example bytesToHex_beyond_bytes :
  NFCCard.bytesToHex [4096] = NFCCard.bytesToHex [16; 0]
  /\ NFCCard.bytesToHex [-1] = "-1".
Proof. split; reflexivity. Qed.

(** Case analysis along a program: split on what its next step branches
    on. *)
Ltac stuck m :=
  lazymatch m with
  | bind ?m' _ => stuck m'
  | try_catch ?m' _ => stuck m'
  | try_finally ?m' _ => stuck m'
  | match ?x with _ => _ end => constr:(x)
  end.

Ltac wp_cases :=
  repeat (simpl; intros;
          match goal with
          | |- wp ?m _ _ _ => let x := stuck m in destruct x eqn:?
          end);
  simpl; intros.

Lemma hex_pair_nonempty (byte : Z) : hex_pair byte <> "".
Proof.
  unfold hex_pair, JsText.padStart.
  destruct (JsText.toString16 byte) as [| c [| c' s]]; simpl; discriminate.
Qed.

Lemma bytesToHex_empty (bytes : list Z) :
  NFCCard.bytesToHex bytes = "" -> bytes = [].
Proof.
  destruct bytes as [| x l]; [reflexivity |].
  rewrite bytesToHex_cons. intros H.
  destruct (hex_pair x) eqn:Hp; [| discriminate].
  destruct (hex_pair_nonempty x Hp).
Qed.

Lemma truthy_string_nonempty (o : option string) :
  JsText.truthy_string o = true -> o <> Some "".
Proof. intros H E. subst o. discriminate. Qed.

Lemma append_nonempty (a b : string) : a <> "" -> a ++ b <> "".
Proof. destruct a; simpl; [congruence | discriminate]. Qed.

(** X2.  Whatever the manager replies, [extractCardId] resolves and never
    rejects, leaves the state as it was, and asks the manager for the tag
    at most once more, and not at all when the tag has an id, a uid or a
    non-empty serial number.  The identifier it returns is the empty
    string only for a tag whose id is an empty array, or which has no id
    and an empty uid array: every other method yields text or [null]. *)
Theorem extractCardId_settles
    (ndefMessage : TagInfo -> option (list NdefRecord)) (env : Oracle)
    (tagInfo : TagInfo) (w : Sys) (log : list Call) :
  let o := run env (NFCCard.extractCardId ndefMessage tagInfo) w log in
  (exists found,
     result o = Fulfilled found /\
     (found = Some "" ->
      tag_id tagInfo = Some []
      \/ (tag_id tagInfo = None /\ tag_uid tagInfo = Some []))) /\
  final o = w /\
  (calls o = log \/ calls o = (log ++ [NfcManager_getTag])%list) /\
  (tag_id tagInfo <> None \/ tag_uid tagInfo <> None
   \/ JsText.truthy_string (tag_serialNumber tagInfo) = true ->
   calls o = log).
Proof.
  cbv zeta.
  apply (wp_run env (NFCCard.extractCardId ndefMessage tagInfo)
           (fun r w' log' =>
              (exists found,
                 r = Fulfilled found /\
                 (found = Some "" ->
                  tag_id tagInfo = Some []
                  \/ (tag_id tagInfo = None /\ tag_uid tagInfo = Some []))) /\
              w' = w /\
              (log' = log \/ log' = (log ++ [NfcManager_getTag])%list) /\
              (tag_id tagInfo <> None \/ tag_uid tagInfo <> None
               \/ JsText.truthy_string (tag_serialNumber tagInfo) = true ->
               log' = log))).
  unfold NFCCard.extractCardId, NFCCard.readNdefData.
  wp_cases.
  all: split; [eexists; split; [reflexivity | intros Hempty] |
               split; [reflexivity | split]].
  all: try first [left; reflexivity | right; reflexivity].
  all: try (intros [H | [H | H]]; first [reflexivity | congruence]).
  all: try match goal with
       | H : Some (NFCCard.bytesToHex ?l) = Some "" |- _ =>
           injection H as H; apply bytesToHex_empty in H; subst; auto
       | H : Some (_ ++ _) = Some "" |- _ =>
           injection H as H; exfalso; revert H;
           apply append_nonempty, or_else_nonempty; discriminate
       | H : ?x = Some "", T : JsText.truthy_string ?x = true |- _ =>
           rewrite H in T; discriminate T
       | H : Some ?s = Some "", T : negb (?s =? "")%string = true |- _ =>
           injection H as H; rewrite H in T; discriminate T
       | H : None = Some _ |- _ => discriminate H
       end.
Qed.

Lemma own_codes_map_to_themselves :
  NFCService.mapErrorToMessage (new_Error "NFC_NOT_SUPPORTED")
    = NFC_NOT_SUPPORTED /\
  NFCService.mapErrorToMessage (new_Error "NFC_DISABLED") = NFC_DISABLED /\
  NFCService.mapErrorToMessage (new_Error "SCAN_TIMEOUT") = SCAN_TIMEOUT /\
  NFCService.mapErrorToMessage (new_Error "INVALID_CARD") = INVALID_CARD /\
  NFCService.mapErrorToMessage (new_Error "NFC_NOT_AVAILABLE_IN_EXPO_GO")
    = UNKNOWN_ERROR.
Proof. repeat split; vm_compute; reflexivity. Qed.

(** X3.  On a device whose reader can be engaged, a scan that is handed a
    tag with an id array resolves after the calls of the engagement, the
    tag request, [getTag] and [cancelTechnologyRequest]: with the id's
    hexadecimal text as card identifier when the array has elements, and
    with the failure kind INVALID_CARD when the array is empty, whatever
    uid, serial number or NDEF message the tag also has. *)
Theorem scan_by_tag_id
    (ndefMessage : TagInfo -> option (list NdefRecord)) (env : Oracle)
    (w : Sys) (log : list Call) (tagInfo : TagInfo) (bytes : list Z) :
  reader_ready env w ->
  (exists tech, request_settles env (inr (Resolved (Some tech)))) ->
  (forall history, env history NfcManager_getTag = inr tagInfo) ->
  tag_id tagInfo = Some bytes ->
  let o := run env (NFCCard.startScanning ndefMessage) w log in
  result o
  = Fulfilled
      match bytes with
      | [] => {| success := false;
                 cardId := None;
                 error := Some (AppError_string INVALID_CARD);
                 timestamp := clock w |}
      | _ :: _ => {| success := true;
                     cardId := Some (NFCCard.bytesToHex bytes);
                     error := None;
                     timestamp := clock w |}
      end /\
  final o = engaged w /\
  calls o = (log ++ engage_calls w
                 ++ [request_call w; NfcManager_getTag;
                     NfcManager_cancelTechnologyRequest])%list.
Proof.
  intros (Hloaded & Hsup & Hstart & Hen) [tech Hreq] Htag Hid.
  unfold request_settles in Hreq.
  destruct own_codes_map_to_themselves as (_ & _ & _ & Hinvalid & _).
  assert (Hcard : (NFCCard.bytesToHex bytes =? "")%string
                  = match bytes with [] => true | _ => false end).
  { destruct bytes as [| x l]; [reflexivity |].
    apply String.eqb_neq. intros E. apply bytesToHex_empty in E.
    discriminate E. }
  cbv zeta.
  unfold engaged, engage_calls, request_call, NFCCard.startScanning,
    NFCCard.scan, NFCCard.extractCardId.
  destruct (isInitialized (service w)) eqn:Hinit;
    repeat (progress (simpl; rewrite ?Hloaded, ?Hinit, ?Hsup, ?Hstart, ?Hen,
                        ?Hreq, ?Htag, ?Hid, ?Hcard)).
  all: destruct bytes as [| x l]; simpl; rewrite ?Hloaded, ?Hinvalid; simpl;
    match goal with
    | |- context [?f ?h NfcManager_cancelTechnologyRequest] =>
        destruct (f h NfcManager_cancelTechnologyRequest)
    end; simpl; rewrite <- ?app_assoc; repeat split; reflexivity.
Qed.

Lemma scan_by_tag_id_witness :
  let env := answering (with_getTag (inr blank_id_tag) (working offboard)) in
  let o := run env (NFCCard.startScanning (fun _ => None)) launched [] in
  result o = Fulfilled (failure INVALID_CARD 1000) /\
  calls o = [NfcManager_isSupported; NfcManager_start; NfcManager_isEnabled;
             request_call launched; NfcManager_getTag;
             NfcManager_cancelTechnologyRequest].
Proof.
  cbv zeta.
  assert (Hready : reader_ready
                     (answering (with_getTag (inr blank_id_tag)
                                             (working offboard))) launched)
    by (repeat split).
  assert (Hreq : exists tech,
             request_settles
               (answering (with_getTag (inr blank_id_tag) (working offboard)))
               (inr (Resolved (Some tech))))
    by (exists Ndef; intros history techRequest timeoutMs; reflexivity).
  destruct (scan_by_tag_id (fun _ => None) _ launched [] blank_id_tag []
              Hready Hreq (fun _ => eq_refl) eq_refl) as (Hres & _ & Hcalls).
  exact (conj Hres Hcalls).
Defined.

Lemma toString10_injective (a b : Z) :
  JsText.toString10 a = JsText.toString10 b -> a = b.
Proof.
  unfold JsText.toString10. intros H.
  apply DecimalZ.to_int_inj.
  assert (Hnil : forall z, Z.to_int z <> Decimal.Pos Decimal.Nil
                           /\ Z.to_int z <> Decimal.Neg Decimal.Nil).
  { intros [| p | p]; simpl; split; try discriminate;
      intros E; injection E as E;
      exact (DecimalPos.Unsigned.to_uint_nonnil p E). }
  apply (f_equal DecimalString.NilZero.int_of_string) in H.
  rewrite !DecimalString.NilZero.isi in H by apply Hnil.
  congruence.
Qed.

Lemma append_cancel (prefix a b : string) :
  prefix ++ a = prefix ++ b -> a = b.
Proof. induction prefix as [| c p IH]; simpl; intros H; [| injection H]; auto. Qed.

(** X4.  A tag that offers no id, no uid, no serial number, no NDEF message
    and no size, only a type, is identified by [extractCardId] as the type,
    an underscore and the time of the scan in milliseconds: read at two
    different times, the same tag gets two different identifiers. *)
Theorem fallback_identifier_follows_clock
    (ndefMessage : TagInfo -> option (list NdefRecord)) (env : Oracle)
    (tagInfo : TagInfo) (kind : string) (w w' : Sys) (log : list Call) :
  tag_id tagInfo = None ->
  tag_uid tagInfo = None ->
  JsText.truthy_string (tag_serialNumber tagInfo) = false ->
  Js.truthy_number (tag_maxSize tagInfo) = false ->
  tag_type tagInfo = Some kind ->
  kind <> "" ->
  (forall tag, ndefMessage tag = None) ->
  clock w <> clock w' ->
  let extracted w :=
    result (run env (NFCCard.extractCardId ndefMessage tagInfo) w log) in
  extracted w
  = Fulfilled (Some (kind ++ "_" ++ JsText.toString10 (clock w))) /\
  extracted w <> extracted w'.
Proof.
  intros Hid Huid Hserial Hsize Htype Hkind Hndef Hclock. cbv zeta.
  assert (Hex : forall w0,
            result (run env (NFCCard.extractCardId ndefMessage tagInfo) w0 log)
            = Fulfilled (Some (kind ++ "_" ++ JsText.toString10 (clock w0)))).
  { intros w0.
    unfold NFCCard.extractCardId, NFCCard.readNdefData.
    rewrite Hid, Huid, Hserial, Hsize, Htype. simpl.
    apply String.eqb_neq in Hkind. rewrite Hkind. simpl.
    destruct (NfcManager_loaded (service w0)); simpl.
    - destruct (env log NfcManager_getTag) as [e | tag]; simpl;
        rewrite ?Hndef; simpl;
        destruct (tag_maxSize tagInfo) as [z |]; simpl in *;
        try destruct (z =? 0); try discriminate; reflexivity.
    - destruct (tag_maxSize tagInfo) as [z |]; simpl in *;
        try destruct (z =? 0); try discriminate; reflexivity. }
  split; [apply Hex |].
  rewrite !Hex. intros E. injection E as E.
  apply append_cancel in E. injection E as E.
  apply toString10_injective in E. contradiction.
Qed.

Lemma fallback_identifier_follows_clock_witness :
  let extracted w :=
    result (run (answering (working offboard))
                (NFCCard.extractCardId (fun _ => None) typed_tag) w []) in
  extracted launched = Fulfilled (Some "NfcA_1000") /\
  extracted launched <> extracted (set_clock 2000 launched).
Proof.
  apply (fallback_identifier_follows_clock
           (fun _ => None) (answering (working offboard)) typed_tag "NfcA"
           launched (set_clock 2000 launched) []);
    try reflexivity; discriminate.
Defined.

(* ================================================================== *)
(** * The Card Reader adapter, whatever the manager replies *)
(* ================================================================== *)

Lemma mapErrorToMessage_kind (e : Thrown) :
  adapter_kind (NFCService.mapErrorToMessage e) = true.
Proof.
  unfold NFCService.mapErrorToMessage. cbv zeta.
  repeat match goal with
         | |- context [if ?b then _ else _] => destruct b
         end; reflexivity.
Qed.

Lemma outcomes_anything {A : Type} (m : Async A) :
  outcomes anything anything m.
Proof. induction m; simpl; auto; exact I. Qed.

(** The adapter's scan is the scan over its own extraction. *)
Lemma scan_is_startScanning :
  NFCCard.scan NFCService.extractCardId = NFCService.startScanning.
Proof. reflexivity. Qed.

Lemma scan_settles (extract : TagInfo -> Async (option string)) :
  outcomes settled_scan nothing (NFCCard.scan extract).
Proof.
  unfold NFCCard.scan.
  apply outcomes_try_finally; [| exact stopScanning_never_throws].
  apply outcomes_try_catch with (E' := anything).
  2: { intros e _ w. simpl. unfold settled_scan. simpl.
       split; [reflexivity |]. eauto using mapErrorToMessage_kind. }
  apply outcomes_bind with (P := anything); [intros w; exact I |].
  intros self _. destruct (negb (NfcManager_loaded self)); [exact I |].
  apply outcomes_bind with (P := anything); [apply outcomes_anything |].
  intros _ _.
  apply outcomes_bind with (P := anything); [apply outcomes_anything |].
  intros enabled _. destruct (negb enabled); [exact I |].
  apply outcomes_bind with (P := anything); [intros w; exact I |].
  intros w _. cbv zeta.
  apply outcomes_bind with (P := anything); [intros [e | r]; exact I |].
  intros [[tech |] |] _; try exact I.
  apply outcomes_bind with (P := anything); [intros [e | r]; exact I |].
  intros tagInfo _.
  apply outcomes_bind with (P := anything); [apply outcomes_anything |].
  intros [card |] _; [| exact I].
  destruct (String.eqb_spec card ""); [exact I |].
  intros w'. simpl. unfold settled_scan. simpl. split; eauto.
Qed.

(** X5.  Whatever the NFC manager replies, and whatever the extraction of
    the identifier does, a scan resolves and never rejects; its result has
    a non-empty card identifier and no error, or no card identifier and
    one of the kinds NFC_NOT_SUPPORTED, NFC_DISABLED, SCAN_TIMEOUT,
    INVALID_CARD and UNKNOWN_ERROR.  ([NFCService.startScanning] is
    [NFCCard.scan NFCService.extractCardId].) *)
Theorem scan_resolves_with_adapter_kind
    (extract : TagInfo -> Async (option string)) (env : Oracle) (w : Sys)
    (log : list Call) :
  exists r,
    result (run env (NFCCard.scan extract) w log) = Fulfilled r
    /\ if success r
       then (exists card, cardId r = Some card /\ card <> "")
            /\ error r = None
       else cardId r = None /\
            exists kind,
              adapter_kind kind = true
              /\ error r = Some (AppError_string kind).
Proof.
  pose proof (run_outcomes settled_scan nothing env (NFCCard.scan extract)
                (scan_settles extract) w log) as H.
  destruct (result (run env (NFCCard.scan extract) w log)) as [r | e].
  - exists r. split; [reflexivity | exact H].
  - destruct H.
Qed.

(** X6.  Where the NFC manager did not load (Expo Go), the adapter calls
    nothing: [initialize], [isSupported] and [isEnabled] resolve to false,
    [stopScanning] resolves, and a scan resolves at once with the kind
    UNKNOWN_ERROR (the message NFC_NOT_AVAILABLE_IN_EXPO_GO matches none of
    the codes).  The store's [startScanning] then counts one failed
    attempt and shows UNKNOWN_ERROR. *)
Theorem without_nfc_manager
    (env : Oracle) (w : Sys) (log : list Call) (requested : Status) :
  NfcManager_loaded (service w) = false ->
  run env NFCService.initialize w log = mkOutcome (Fulfilled false) w log /\
  run env NFCService.isSupported w log = mkOutcome (Fulfilled false) w log /\
  run env NFCService.isEnabled w log = mkOutcome (Fulfilled false) w log /\
  run env NFCService.stopScanning w log = mkOutcome (Fulfilled tt) w log /\
  run env NFCService.startScanning w log
  = mkOutcome (Fulfilled (failure UNKNOWN_ERROR (clock w))) w log /\
  let o := run env (Store.startScanning requested) w log in
  calls o = log /\
  app_error (store (final o)) = Some (AppError_string UNKNOWN_ERROR) /\
  sessionStats (store (final o)) = Store.incr_failed (sessionStats (store w)).
Proof.
  intros Hl.
  unfold NFCService.startScanning, failure.
  repeat (progress (simpl; rewrite ?Hl)).
  repeat split; reflexivity.
Qed.

Lemma without_nfc_manager_witness :
  let env := answering (working offboard) in
  run env NFCService.startScanning expo_go []
  = mkOutcome (Fulfilled (failure UNKNOWN_ERROR 1000)) expo_go [] /\
  calls (run env (Store.startScanning onboard) expo_go []) = [].
Proof.
  cbv zeta.
  destruct (without_nfc_manager (answering (working offboard)) expo_go []
              onboard eq_refl) as (_ & _ & _ & _ & Hscan & Hcalls & _).
  exact (conj Hscan Hcalls).
Defined.

(** X7.  With the manager loaded and not yet initialised: when the device
    reports no NFC support, or the support check rejects, or the manager's
    start rejects, [initialize] resolves to false and changes nothing, and
    a scan resolves with the kind NFC_NOT_SUPPORTED after the support
    check (and the start, if it got there) and the final
    [cancelTechnologyRequest]; no tag is requested. *)
Theorem unsupported_device_is_reported
    (env : Oracle) (w : Sys) (log asked : list Call) :
  NfcManager_loaded (service w) = true ->
  isInitialized (service w) = false ->
  cannot_start env asked ->
  run env NFCService.initialize w log
  = mkOutcome (Fulfilled false) w (log ++ asked) /\
  run env NFCService.startScanning w log
  = mkOutcome (Fulfilled (failure NFC_NOT_SUPPORTED (clock w))) w
              (log ++ asked ++ [NfcManager_cancelTechnologyRequest]).
Proof.
  intros Hloaded Hinit [[Hasked [r [Hr Hsup]]]
                       | [Hasked [Hsup [e Hstart]]]]; subst asked.
  - unfold NFCService.startScanning, failure.
    repeat (progress (simpl; rewrite ?Hloaded, ?Hinit, ?Hsup)).
    destruct r as [e | []]; [| congruence |];
      repeat (progress (simpl; rewrite ?Hloaded));
      match goal with
      | |- context [?f ?h NfcManager_cancelTechnologyRequest] =>
          destruct (f h NfcManager_cancelTechnologyRequest)
      end; simpl; rewrite <- ?app_assoc; split; reflexivity.
  - unfold NFCService.startScanning, failure.
    repeat (progress (simpl; rewrite ?Hloaded, ?Hinit, ?Hsup, ?Hstart)).
    match goal with
    | |- context [?f ?h NfcManager_cancelTechnologyRequest] =>
        destruct (f h NfcManager_cancelTechnologyRequest)
    end; simpl; rewrite <- ?app_assoc; split; reflexivity.
Qed.

Lemma unsupported_device_is_reported_witness :
  let env := answering (with_isSupported (inr false) (working offboard)) in
  run env NFCService.initialize launched []
  = mkOutcome (Fulfilled false) launched [NfcManager_isSupported] /\
  run env NFCService.startScanning launched []
  = mkOutcome (Fulfilled (failure NFC_NOT_SUPPORTED 1000)) launched
              [NfcManager_isSupported; NfcManager_cancelTechnologyRequest].
Proof.
  cbv zeta.
  apply (unsupported_device_is_reported
           (answering (with_isSupported (inr false) (working offboard)))
           launched [] [NfcManager_isSupported] eq_refl eq_refl).
  left. split; [reflexivity |].
  exists (inr false). split; [discriminate | reflexivity].
Defined.

(** X8.  With the reader present but NFC switched off (or the check of it
    rejecting), a scan resolves with the kind NFC_DISABLED after the calls
    of the engagement and the final [cancelTechnologyRequest]; no tag is
    requested, and the service stays initialised. *)
Theorem switched_off_reader_is_reported
    (env : Oracle) (w : Sys) (log : list Call) :
  switched_off env w ->
  run env NFCService.startScanning w log
  = mkOutcome (Fulfilled (failure NFC_DISABLED (clock w))) (engaged w)
              (log ++ engage_calls w
                   ++ [NfcManager_cancelTechnologyRequest]).
Proof.
  intros (Hloaded & Hsup & Hstart & r & Hr & Hen).
  unfold NFCService.startScanning, failure, engaged, engage_calls.
  destruct (isInitialized (service w)) eqn:Hinit;
    repeat (progress (simpl; rewrite ?Hloaded, ?Hinit, ?Hsup, ?Hstart, ?Hen)).
  all: destruct r as [e | []]; [| congruence |];
    repeat (progress (simpl; rewrite ?Hloaded));
    match goal with
    | |- context [?f ?h NfcManager_cancelTechnologyRequest] =>
        destruct (f h NfcManager_cancelTechnologyRequest)
    end; simpl; rewrite <- ?app_assoc; reflexivity.
Qed.

Lemma switched_off_reader_is_reported_witness :
  let env := answering (with_isEnabled (inr false) (working offboard)) in
  run env NFCService.startScanning launched []
  = mkOutcome (Fulfilled (failure NFC_DISABLED 1000)) (engaged launched)
              [NfcManager_isSupported; NfcManager_start; NfcManager_isEnabled;
               NfcManager_cancelTechnologyRequest].
Proof.
  cbv zeta.
  apply (switched_off_reader_is_reported
           (answering (with_isEnabled (inr false) (working offboard)))
           launched []).
  repeat split.
  exists (inr false). split; [discriminate | reflexivity].
Defined.

Lemma scan_body_keeps_manager (w0 : Sys) {A : Type} (m : Async A) :
  preserves (fun w => NfcManager_loaded (service w) = true
                      /\ store w = store w0) m ->
  forall env log,
    NfcManager_loaded (service w0) = true ->
    NfcManager_loaded (service (final (run env m w0 log))) = true
    /\ store (final (run env m w0 log)) = store w0.
Proof.
  intros Hm env log Hl.
  apply (run_preserves _ env m Hm w0 log). auto.
Qed.

(** X9.  Wherever the manager loaded, and whatever it replies, a scan ends
    by calling [cancelTechnologyRequest], once and as its last call: the
    reader is released on every exit path.  All its calls go to the NFC
    manager, none to the Record Store, and the store's state is left as it
    was. *)
Theorem scan_releases_the_reader
    (ndefMessage : TagInfo -> option (list NdefRecord)) (env : Oracle)
    (w : Sys) (log : list Call) :
  NfcManager_loaded (service w) = true ->
  let o := run env (NFCCard.startScanning ndefMessage) w log in
  (exists before,
     calls o = (log ++ before ++ [NfcManager_cancelTechnologyRequest])%list
     /\ Forall (fun c => c <> NfcManager_cancelTechnologyRequest
                         /\ is_nfc_manager_call c = true) before) /\
  store (final o) = store w.
Proof.
  intros Hl. cbv zeta.
  unfold NFCCard.startScanning, NFCCard.scan.
  rewrite run_try_finally. cbv zeta.
  match goal with
  | |- context [run env (try_catch ?b ?h) w log] =>
      set (body := try_catch b h)
  end.
  assert (Hkeep : preserves (fun w' => NfcManager_loaded (service w') = true
                                       /\ store w' = store w) body).
  { unfold body, NFCCard.extractCardId, NFCCard.readNdefData.
    keeps ltac:(simpl in *; intuition auto). }
  assert (Hiss : issues (fun c => c <> NfcManager_cancelTechnologyRequest
                                  /\ is_nfc_manager_call c = true) body).
  { unfold body, NFCCard.extractCardId, NFCCard.readNdefData.
    only_issues ltac:(split; [discriminate | reflexivity]). }
  destruct (scan_body_keeps_manager w body Hkeep env log Hl) as [Hl' Hst].
  destruct (run_issues _ env body Hiss w log) as [before [Hcalls Hall]].
  destruct (run env body w log) as [res fin made]. simpl in Hl', Hst, Hcalls.
  subst made. unfold NFCService.stopScanning. simpl. rewrite Hl'. simpl.
  destruct (env (log ++ before)%list NfcManager_cancelTechnologyRequest)
    as [e | []]; simpl;
    (split; [exists before; rewrite <- app_assoc; auto | exact Hst]).
Qed.

Lemma scan_releases_the_reader_witness :
  let o := run timing_out (NFCCard.startScanning (fun _ => None)) launched [] in
  (exists before,
     calls o = ([] ++ before ++ [NfcManager_cancelTechnologyRequest])%list
     /\ Forall (fun c => c <> NfcManager_cancelTechnologyRequest
                         /\ is_nfc_manager_call c = true) before) /\
  store (final o) = store launched.
Proof.
  exact (scan_releases_the_reader (fun _ => None) timing_out launched []
           eq_refl).
Defined.

(** X10.  [initialize] resolves, never rejects.  It resolves to true exactly
    when the manager loaded, the support check resolved to true and the
    manager's start resolved; only then is the service marked initialised,
    and otherwise the state is left as it was.  The start is called only
    after the support check resolved to true. *)
Theorem initialize_reports_the_start
    (env : Oracle) (w : Sys) (log : list Call) :
  let o := run env NFCService.initialize w log in
  exists started,
    result o = Fulfilled started /\
    (started = true <->
     NfcManager_loaded (service w) = true
     /\ env log NfcManager_isSupported = inr true
     /\ env (log ++ [NfcManager_isSupported])%list NfcManager_start = inr tt) /\
    final o
    = (if started
       then set_service (NFCService.set_isInitialized true (service w)) w
       else w) /\
    calls o
    = (log ++ if negb (NfcManager_loaded (service w)) then []
              else match env log NfcManager_isSupported with
                   | inr true => [NfcManager_isSupported; NfcManager_start]
                   | _ => [NfcManager_isSupported]
                   end)%list.
Proof.
  cbv zeta. simpl.
  destruct (NfcManager_loaded (service w)); simpl.
  2: { exists false. rewrite app_nil_r. repeat split; try reflexivity;
         intros; try discriminate; intuition discriminate. }
  destruct (env log NfcManager_isSupported) as [e | [|]]; simpl.
  - exists false. repeat split; try reflexivity; intuition discriminate.
  - destruct (env (log ++ [NfcManager_isSupported])%list NfcManager_start)
      as [e | []]; simpl; rewrite <- ?app_assoc; simpl.
    + exists false. repeat split; try reflexivity; intuition discriminate.
    + exists true. repeat split; reflexivity.
  - exists false. repeat split; try reflexivity; intuition discriminate.
Qed.

(** X11.  [cleanup] releases the reader and forgets the initialisation,
    leaving the store alone; the next scan checks support and starts the
    manager again before it requests the tag, reads the card and leaves
    the service initialised. *)
Theorem scan_after_cleanup_starts_again
    (env : Oracle) (w : Sys) (log : list Call) (tagInfo : TagInfo)
    (card : string) :
  reader_ready env w ->
  reads_card env tagInfo card ->
  let cleaned := run env NFCService.cleanup w log in
  let o := run env NFCService.startScanning (final cleaned) (calls cleaned) in
  isInitialized (service (final cleaned)) = false /\
  store (final cleaned) = store w /\
  result o = Fulfilled (read_scan card (clock w)) /\
  isInitialized (service (final o)) = true /\
  calls o
  = (log ++ [NfcManager_cancelTechnologyRequest; NfcManager_isSupported;
             NfcManager_start; NfcManager_isEnabled; request_call w;
             NfcManager_getTag; Tag_identifier tagInfo;
             NfcManager_cancelTechnologyRequest])%list.
Proof.
  intros Hready Hreads. cbv zeta.
  assert (Hclean : exists w1,
            run env NFCService.cleanup w log
            = mkOutcome (Fulfilled tt) w1
                        (log ++ [NfcManager_cancelTechnologyRequest])
            /\ isInitialized (service w1) = false
            /\ NfcManager_loaded (service w1) = true
            /\ store w1 = store w /\ clock w1 = clock w
            /\ request_call w1 = request_call w).
  { destruct Hready as (Hloaded & _). simpl. rewrite Hloaded. simpl.
    destruct (env log NfcManager_cancelTechnologyRequest) as [e | []];
      simpl; destruct (isInitialized (service w)) eqn:Hinit; simpl;
      eexists; (split; [reflexivity |]); simpl; auto. }
  destruct Hclean as (w1 & Hrun & Hinit & Hloaded & Hstore & Hclock & Hreq).
  rewrite Hrun. cbn [final calls].
  assert (Hready1 : reader_ready env w1).
  { destruct Hready as (_ & H). split; assumption. }
  rewrite (scan_with_tag env w1 _ tagInfo card Hready1 Hreads).
  unfold engaged, engage_calls. rewrite Hinit, Hclock, Hreq.
  cbn [result final calls]. rewrite <- app_assoc. simpl.
  repeat split; auto.
Qed.

Lemma scan_after_cleanup_starts_again_witness :
  let env := answering (working offboard) in
  let cleaned := run env NFCService.cleanup (engaged launched) [] in
  let o := run env NFCService.startScanning (final cleaned) (calls cleaned) in
  isInitialized (service (engaged launched)) = true /\
  isInitialized (service (final cleaned)) = false /\
  result o = Fulfilled (read_scan "A1" 1000) /\
  calls o
  = [NfcManager_cancelTechnologyRequest; NfcManager_isSupported;
     NfcManager_start; NfcManager_isEnabled; request_call launched;
     NfcManager_getTag; Tag_identifier some_tag;
     NfcManager_cancelTechnologyRequest].
Proof.
  cbv zeta.
  assert (Hready : reader_ready (answering (working offboard))
                                (engaged launched)) by (repeat split).
  assert (Hreads : reads_card (answering (working offboard)) some_tag "A1").
  { split; [exists Ndef; intros history techRequest timeoutMs; reflexivity |].
    repeat split. discriminate. }
  destruct (scan_after_cleanup_starts_again (answering (working offboard))
              (engaged launched) [] some_tag "A1" Hready Hreads)
    as (Hforgot & _ & Hres & _ & Hcalls).
  exact (conj eq_refl (conj Hforgot (conj Hres Hcalls))).
Defined.

(** X12.  After [setScanTimeout], [getScanTimeout] returns the value set,
    and the next scan races its tag request against a timer of that
    length; when the timer fires first the scan resolves with the kind
    SCAN_TIMEOUT. *)
Theorem scan_races_the_timeout_last_set
    (env : Oracle) (w : Sys) (log : list Call) (timeout : Z) :
  reader_ready env w ->
  request_settles env (inr TimerFired) ->
  let set := run env (NFCService.setScanTimeout timeout) w log in
  let o := run env NFCService.startScanning (final set) (calls set) in
  result (run env NFCService.getScanTimeout (final set) (calls set))
  = Fulfilled timeout /\
  result o = Fulfilled (failure SCAN_TIMEOUT (clock w)) /\
  calls o
  = (log ++ engage_calls w
         ++ [NfcManager_requestTechnology
               match Platform_OS w with
               | android => [Ndef; NfcA; NfcB; NfcF; NfcV]
               | _ => [Ndef]
               end
               timeout;
             NfcManager_cancelTechnologyRequest])%list.
Proof.
  intros Hready Hreq. cbv zeta.
  split; [reflexivity |].
  simpl (run env (NFCService.setScanTimeout timeout) w log).
  cbn [final calls].
  assert (Hready' : reader_ready env
                      (set_service
                         (NFCService.set_scanTimeout timeout (service w)) w))
    by exact Hready.
  rewrite (scan_without_tag env _ log (inr TimerFired)
             NFCService.createScanTimeout Hready' Hreq eq_refl).
  cbn [result calls]. split; reflexivity.
Qed.

Lemma scan_races_the_timeout_last_set_witness :
  let set := run timing_out (NFCService.setScanTimeout 250) launched [] in
  let o := run timing_out NFCService.startScanning (final set) (calls set) in
  result (run timing_out NFCService.getScanTimeout (final set) (calls set))
  = Fulfilled 250 /\
  result o = Fulfilled (failure SCAN_TIMEOUT 1000) /\
  calls o
  = [NfcManager_isSupported; NfcManager_start; NfcManager_isEnabled;
     NfcManager_requestTechnology [Ndef; NfcA; NfcB; NfcF; NfcV] 250;
     NfcManager_cancelTechnologyRequest].
Proof.
  apply (scan_races_the_timeout_last_set timing_out launched [] 250).
  - repeat split.
  - intros history techRequest timeoutMs. reflexivity.
Defined.

(* ================================================================== *)
(** * The store over the adapter *)
(* ================================================================== *)

(** X13.  Whenever the adapter's scan resolves with a failure result, of
    whatever kind, the store's [startScanning] resolves, makes no call
    beyond the scan's own (no lookup is attempted), adds one to failedScans
    and to totalScanned and leaves the other counters, shows the failure
    kind as error, records the result as last scan result, clears
    isScanning, and leaves the list of pilgrims and the selected pilgrim
    as they were. *)
Theorem failed_scan_is_counted_once
    (env : Oracle) (w : Sys) (log : list Call) (requested : Status)
    (r : NFCScanResult) :
  result (run env NFCService.startScanning (scanning requested w) log)
  = Fulfilled r ->
  success r = false ->
  let scan := run env NFCService.startScanning (scanning requested w) log in
  let o := run env (Store.startScanning requested) w log in
  result o = Fulfilled tt /\
  calls o = calls scan /\
  sessionStats (store (final o)) = Store.incr_failed (sessionStats (store w)) /\
  app_error (store (final o)) = error r /\
  nfc_lastScanResult (nfc (store (final o))) = Some r /\
  nfc_isScanning (nfc (store (final o))) = false /\
  pilgrims (store (final o)) = pilgrims (store w) /\
  selectedPilgrim (store (final o)) = selectedPilgrim (store w).
Proof.
  intros Hres Hfail. cbv zeta.
  unfold Store.startScanning.
  rewrite run_bind. simpl (run env (Store.set _) _ _).
  cbn [result final calls].
  rewrite run_try_catch, run_bind.
  change (set_store (set_error None _) w) with (scanning requested w).
  pose proof (run_outcomes well_formed nothing env NFCService.startScanning
                scan_resolves_well_formed (scanning requested w) log) as Hwf.
  pose proof (run_preserves
                (fun w' => store w' = store (scanning requested w)) env
                NFCService.startScanning
                (startScanning_frame
                   (fun a => a = store (scanning requested w)))
                (scanning requested w) log eq_refl) as Hframe.
  destruct (run env NFCService.startScanning (scanning requested w) log)
    as [res fin made].
  simpl in Hres, Hwf, Hframe. subst res. cbn [result final calls].
  unfold well_formed in Hwf. rewrite Hfail in Hwf.
  destruct Hwf as [Hcard [kind Hkind]].
  destruct r as [ok card err stamp]. simpl in *. subst ok card err.
  rewrite Hframe.
  destruct kind; simpl; repeat split; reflexivity.
Qed.

Lemma failed_scan_is_counted_once_witness :
  let o := run cancelling (Store.startScanning onboard) launched [] in
  result o = Fulfilled tt /\
  calls o = calls (run cancelling NFCService.startScanning
                       (scanning onboard launched) []) /\
  sessionStats (store (final o))
  = Store.incr_failed (sessionStats (store launched)) /\
  app_error (store (final o)) = Some "SCAN_TIMEOUT".
Proof.
  cbv zeta.
  destruct (failed_scan_is_counted_once cancelling launched [] onboard
              (failure SCAN_TIMEOUT 1000) eq_refl eq_refl)
    as (Hres & Hcalls & Hstats & Herror & _).
  exact (conj Hres (conj Hcalls (conj Hstats Herror))).
Defined.

(** X14.  Whatever the manager replies, the store's [initializeNFC] resolves
    and never rejects; when it resolves to true the store shows NFC as
    enabled and the service is initialised.  It never sets the error
    field (its own [catch] block cannot be reached, the adapter's
    functions catching everything themselves) and leaves the session
    statistics, the scanning mode and the list of pilgrims as they
    were. *)
Theorem initializeNFC_reports_the_reader
    (env : Oracle) (w : Sys) (log : list Call) :
  let o := run env Store.initializeNFC w log in
  exists ready,
    result o = Fulfilled ready /\
    (ready = true ->
     nfc_isEnabled (nfc (store (final o))) = true
     /\ isInitialized (service (final o)) = true) /\
    app_error (store (final o)) = app_error (store w) /\
    sessionStats (store (final o)) = sessionStats (store w) /\
    scanningMode (store (final o)) = scanningMode (store w) /\
    pilgrims (store (final o)) = pilgrims (store w).
Proof.
  cbv zeta.
  apply (wp_run env Store.initializeNFC
           (fun r w' _ =>
              exists ready,
                r = Fulfilled ready /\
                (ready = true ->
                 nfc_isEnabled (nfc (store w')) = true
                 /\ isInitialized (service w') = true) /\
                app_error (store w') = app_error (store w) /\
                sessionStats (store w') = sessionStats (store w) /\
                scanningMode (store w') = scanningMode (store w) /\
                pilgrims (store w') = pilgrims (store w))).
  unfold Store.initializeNFC, NFCService.isEnabled, NFCService.initialize.
  wp_cases.
  all: eexists; split; [reflexivity |]; simpl; repeat split; auto;
    try discriminate.
Qed.

(* ================================================================== *)
(** * The list of pilgrims *)
(* ================================================================== *)

Lemma findIndex_Some {A : Type} (f : A -> bool) (l : list A) (index : nat) :
  Store.findIndex f l = Some index ->
  (exists x, nth_error l index = Some x /\ f x = true) /\
  (forall i x, (i < index)%nat -> nth_error l i = Some x -> f x = false).
Proof.
  revert index. induction l as [| y l IH]; intros index; simpl;
    [discriminate |].
  destruct (f y) eqn:Hy.
  - intros E. injection E as E. subst index.
    split; [exists y; split; [reflexivity | exact Hy] |].
    intros i x Hi. lia.
  - destruct (Store.findIndex f l) as [j |]; [| discriminate].
    intros E. injection E as E. subst index.
    destruct (IH j eq_refl) as [Hx Hbefore]. split; [exact Hx |].
    intros [| i] x Hi; simpl; intros Hnth.
    + congruence.
    + apply (Hbefore i); [lia | exact Hnth].
Qed.

Lemma findIndex_None {A : Type} (f : A -> bool) (l : list A) :
  Store.findIndex f l = None -> Forall (fun x => f x = false) l.
Proof.
  induction l as [| y l IH]; simpl; [constructor |].
  destruct (f y) eqn:Hy; [discriminate |].
  destruct (Store.findIndex f l); [discriminate |]. auto.
Qed.

Lemma assign_at_length {A : Type} (index : nat) (v : A) (l : list A) :
  List.length (Store.assign_at index v l) = List.length l.
Proof.
  revert index. induction l as [| y l IH]; intros [| i]; simpl; auto.
Qed.

Lemma assign_at_same {A : Type} (index : nat) (v : A) (l : list A) :
  (index < List.length l)%nat ->
  nth_error (Store.assign_at index v l) index = Some v.
Proof.
  revert index. induction l as [| y l IH]; intros [| i]; simpl; intros H;
    try lia; auto.
  apply IH. lia.
Qed.

Lemma assign_at_other {A : Type} (index i : nat) (v : A) (l : list A) :
  i <> index ->
  nth_error (Store.assign_at index v l) i = nth_error l i.
Proof.
  revert index i. induction l as [| y l IH]; intros [| j] [| i]; simpl;
    intros H; try congruence; auto.
Qed.

(** X15.  When the Record Store accepts a status update, the store's list
    of pilgrims keeps its length; the record returned takes the place of
    the first record with the given id, every other position is left as
    it was, and a list without a record of that id is left unchanged. *)
Theorem persisted_record_replaces_first_match
    (env : Oracle) (w : Sys) (log : list Call) (pilgrimId : string)
    (target : ScanningMode) (updated : Pilgrim) :
  env log (Pb_update pilgrimId target) = inr updated ->
  let before := pilgrims (store w) in
  let o := run env (Store.updatePilgrimStatus pilgrimId target) w log in
  let after := pilgrims (store (final o)) in
  List.length after = List.length before /\
  match Store.findIndex (fun p => (id p =? pilgrimId)%string) before with
  | Some index =>
      nth_error after index = Some updated /\
      (forall i, i <> index -> nth_error after i = nth_error before i) /\
      (forall i p, (i < index)%nat -> nth_error before i = Some p ->
                   id p <> pilgrimId)
  | None =>
      after = before /\ Forall (fun p => id p <> pilgrimId) before
  end.
Proof.
  intros Hreply. cbv zeta. simpl. rewrite Hreply. simpl.
  destruct (Store.findIndex (fun p => (id p =? pilgrimId)%string)
                            (pilgrims (store w))) as [index |] eqn:Hfind;
    simpl.
  - destruct (findIndex_Some _ _ _ Hfind) as [[x [Hx _]] Hbefore].
    split; [apply assign_at_length |]. split; [| split].
    + apply assign_at_same. apply nth_error_Some. congruence.
    + intros i Hi. apply assign_at_other. exact Hi.
    + intros i p Hi Hp. apply String.eqb_neq. exact (Hbefore i p Hi Hp).
  - split; [reflexivity |]. split; [reflexivity |].
    apply findIndex_None in Hfind.
    eapply Forall_impl; [| exact Hfind].
    intros p Hp. apply String.eqb_neq. exact Hp.
Qed.

Lemma persisted_record_replaces_first_match_witness :
  let o := run (answering (working offboard))
               (Store.updatePilgrimStatus "p1" onboard) boarding [] in
  List.length (pilgrims (store (final o))) = 1%nat /\
  nth_error (pilgrims (store (final o))) 0 = Some (pilgrim_p1 onboard).
Proof.
  cbv zeta.
  destruct (persisted_record_replaces_first_match
              (answering (working offboard)) boarding [] "p1" onboard
              (pilgrim_p1 onboard) eq_refl) as [Hlength Hrecord].
  simpl in Hrecord. destruct Hrecord as (Hnth & _).
  exact (conj Hlength Hnth).
Defined.

Lemma replace_unique (pilgrimId : string) (updated : Pilgrim)
    (old : list Pilgrim) :
  NoDup (map id old) ->
  match Store.findIndex (fun p => (id p =? pilgrimId)%string) old with
  | Some index => Store.assign_at index updated old
  | None => old
  end
  = map (fun p => if (id p =? pilgrimId)%string then updated else p) old.
Proof.
  induction old as [| p old IH]; simpl; intros Hnodup; [reflexivity |].
  inversion Hnodup as [| x xs Hnotin Hrest]; subst.
  destruct (id p =? pilgrimId)%string eqn:Hp; simpl.
  - f_equal. apply String.eqb_eq in Hp. subst pilgrimId.
    clear IH Hnodup Hrest.
    induction old as [| q old IH]; simpl in *; [reflexivity |].
    destruct (String.eqb_spec (id q) (id p)) as [E | E].
    + exfalso. apply Hnotin. left. exact E.
    + f_equal. apply IH. intros H. apply Hnotin. right. exact H.
  - specialize (IH Hrest).
    destruct (Store.findIndex _ old) as [index |]; simpl; f_equal; exact IH.
Qed.

(** X16.  After an accepted status update, the list in the store is the
    list the query cache's updater ([useUpdatePilgrimStatus], onSuccess)
    computes from the same old list, provided no two records of the list
    share an id and the record returned carries the id that was asked
    for.  (With a duplicated id they differ, as the example after it
    shows.) *)
Theorem store_and_cache_updates_agree
    (env : Oracle) (w : Sys) (log : list Call) (pilgrimId : string)
    (target : ScanningMode) (updated : Pilgrim) :
  env log (Pb_update pilgrimId target) = inr updated ->
  id updated = pilgrimId ->
  NoDup (map id (pilgrims (store w))) ->
  pilgrims (store (final (run env (Store.updatePilgrimStatus pilgrimId target)
                              w log)))
  = PilgrimsCache.onUpdated updated (Some (pilgrims (store w))).
Proof.
  intros Hreply Hid Hnodup. simpl. rewrite Hreply. simpl.
  unfold PilgrimsCache.onUpdated. rewrite Hid.
  rewrite <- (replace_unique pilgrimId updated _ Hnodup).
  destruct (Store.findIndex _ _); reflexivity.
Qed.

Lemma store_and_cache_updates_agree_witness :
  pilgrims (store (final (run (answering (working offboard))
                              (Store.updatePilgrimStatus "p1" onboard)
                              boarding [])))
  = PilgrimsCache.onUpdated (pilgrim_p1 onboard) (Some (pilgrims (store boarding))).
Proof.
  apply (store_and_cache_updates_agree (answering (working offboard)) boarding
           [] "p1" onboard (pilgrim_p1 onboard) eq_refl eq_refl).
  simpl. constructor; [intros [] | constructor].
Defined.

(** Where two records share an id, the store replaces the first and the
    cache both. *)
Example store_and_cache_updates_differ :
  let old := [pilgrim_p1 offboard; pilgrim_p1 offboard] in
  let w := set_store (set_pilgrims old (store launched)) launched in
  pilgrims (store (final (run (answering (working offboard))
                              (Store.updatePilgrimStatus "p1" onboard) w [])))
  = [pilgrim_p1 onboard; pilgrim_p1 offboard] /\
  PilgrimsCache.onUpdated (pilgrim_p1 onboard) (Some old)
  = [pilgrim_p1 onboard; pilgrim_p1 onboard].
Proof. split; reflexivity. Qed.

(* ================================================================== *)
(** * Counters within a session *)
(* ================================================================== *)





(* ================================================================== *)
(** * The Record Store client *)
(* ================================================================== *)

Lemma handleError_normalised (e : Thrown) :
  status (PocketBaseService.handleError e) = None /\
  (exists c, code (PocketBaseService.handleError e) = Some c) /\
  (exists msg, message (PocketBaseService.handleError e) = Some msg
               /\ msg <> "") /\
  PocketBaseService.isNotFoundError (PocketBaseService.handleError e) = false.
Proof.
  unfold PocketBaseService.handleError, PocketBaseService.isNotFoundError,
    Js.truthy_number.
  destruct (status e) as [s |]; simpl.
  - destruct (s =? 0); simpl; repeat split; eauto;
      eexists; (split; [reflexivity |]);
      apply or_else_nonempty; discriminate.
  - repeat split; eauto.
    eexists; (split; [reflexivity |]); apply or_else_nonempty; discriminate.
Qed.

(** X18.  [getPilgrimByNfcId] makes one call, the lookup by the card's
    filter, and leaves the state alone.  It resolves to the record the
    Record Store found, and to [null] exactly when the lookup was rejected
    with status 404.  Every other rejection is passed on normalised: what
    it throws has a numeric code, a non-empty message and no status, so it
    can never be taken for "not found". *)
Theorem lookup_rejects_only_with_normalised_errors
    (env : Oracle) (w : Sys) (log : list Call) (nfcCardId : string) :
  let o := run env (PocketBaseService.getPilgrimByNfcId nfcCardId) w log in
  match result o with
  | Fulfilled found =>
      match found with
      | Some pilgrim => env log (lookup_call nfcCardId) = inr pilgrim
      | None => exists e, env log (lookup_call nfcCardId) = inl e
                          /\ status e = Some 404
      end
  | Rejected thrown =>
      (exists e, env log (lookup_call nfcCardId) = inl e
                 /\ status e <> Some 404
                 /\ thrown = PocketBaseService.handleError e) /\
      status thrown = None /\
      (exists c, code thrown = Some c) /\
      (exists msg, message thrown = Some msg /\ msg <> "") /\
      PocketBaseService.isNotFoundError thrown = false
  end /\
  final o = w /\
  calls o = (log ++ [lookup_call nfcCardId])%list.
Proof.
  cbv zeta. unfold lookup_call. simpl.
  destruct (env log (Pb_getFirstListItem
                       (PocketBaseService.nfc_filter nfcCardId)))
    as [e | pilgrim]; simpl.
  - unfold PocketBaseService.isNotFoundError.
    destruct (status e) as [s |] eqn:Hs; simpl.
    + destruct (Z.eqb_spec s 404) as [E | E]; simpl.
      * subst s. repeat split; eauto.
      * split; [| split; reflexivity].
        split; [exists e; repeat split; congruence |].
        apply handleError_normalised.
    + split; [| split; reflexivity].
      split; [exists e; repeat split; congruence |].
      apply handleError_normalised.
  - repeat split; reflexivity.
Qed.

Lemma upper_hex_is_no_quote (s : string) :
  string_forall is_upper_hex s = true ->
  string_count (fun c => Ascii.eqb c (ascii_of_nat 34)) s = O.
Proof.
  induction s as [| c s IH]; simpl; [reflexivity |].
  intros H. apply andb_true_iff in H. destruct H as [Hc Hs].
  rewrite (IH Hs).
  destruct (Ascii.eqb_spec c (ascii_of_nat 34)) as [E | E]; [| reflexivity].
  subst c. discriminate Hc.
Qed.

Lemma string_count_app (f : ascii -> bool) (a b : string) :
  string_count f (a ++ b) = (string_count f a + string_count f b)%nat.
Proof. induction a as [| c a IH]; simpl; [reflexivity | rewrite IH; lia]. Qed.

Lemma length_append (a b : string) :
  String.length (a ++ b) = (String.length a + String.length b)%nat.
Proof. induction a as [| c a IH]; simpl; congruence. Qed.

Lemma append_cancel_r (a b suffix : string) :
  a ++ suffix = b ++ suffix -> a = b.
Proof.
  revert b. induction a as [| c a IH]; intros [| d b] H; simpl in *.
  - reflexivity.
  - apply (f_equal String.length) in H. simpl in H.
    rewrite length_append in H. lia.
  - apply (f_equal String.length) in H. simpl in H.
    rewrite length_append in H. lia.
  - injection H as Hc H. f_equal; auto.
Qed.

(** X19.  For the identifier of a tag whose id is an array of bytes, the
    lookup filter [nfc_card_id="..."] contains two double quotes, the ones
    that delimit the identifier; and two such tags get the same filter
    only if their ids are the same. *)
Theorem lookup_filter_of_a_byte_id
    (a b : list Z) :
  Forall is_byte a -> Forall is_byte b ->
  string_count (fun c => Ascii.eqb c (ascii_of_nat 34))
               (PocketBaseService.nfc_filter (NFCCard.bytesToHex a)) = 2%nat /\
  (PocketBaseService.nfc_filter (NFCCard.bytesToHex a)
   = PocketBaseService.nfc_filter (NFCCard.bytesToHex b) -> a = b).
Proof.
  intros Ha Hb. split.
  - unfold PocketBaseService.nfc_filter.
    rewrite !string_count_app.
    rewrite (upper_hex_is_no_quote _ (proj2 (bytesToHex_shape a Ha))).
    reflexivity.
  - unfold PocketBaseService.nfc_filter. intros H.
    apply append_cancel in H. apply append_cancel in H.
    apply append_cancel_r in H.
    exact (bytesToHex_inj a b Ha Hb H).
Qed.

Lemma lookup_filter_of_a_byte_id_witness :
  string_count (fun c => Ascii.eqb c (ascii_of_nat 34))
               (PocketBaseService.nfc_filter (NFCCard.bytesToHex [4; 161]))
  = 2%nat /\
  (PocketBaseService.nfc_filter (NFCCard.bytesToHex [4; 161])
   = PocketBaseService.nfc_filter (NFCCard.bytesToHex [4; 162]) ->
   [4; 161] = [4; 162]).
Proof.
  apply (lookup_filter_of_a_byte_id [4; 161] [4; 162]);
    repeat (apply Forall_cons; [unfold is_byte; lia |]); apply Forall_nil.
Defined.



(* ================================================================== *)
(** * Arabic-Indic numerals *)
(* ================================================================== *)

(** What one digit is replaced with: the two bytes of its Arabic-Indic
    form. *)
Lemma arabic_digit (c : ascii) :
  Localization.is_digit c = true ->
  Js.or_else (nth_error Localization.NUMBERS (Localization.parseInt c))
             (String c EmptyString)
  = String (ascii_of_nat 217)
           (String (ascii_of_nat (nat_of_ascii c + 112)) EmptyString).
Proof.
  destruct c as [[] [] [] [] [] [] [] []]; intros H;
    try discriminate H; reflexivity.
Qed.

Lemma toArabicNumbers_app (a b : string) :
  Localization.toArabicNumbers (a ++ b)
  = Localization.toArabicNumbers a ++ Localization.toArabicNumbers b.
Proof.
  induction a as [| c a IH]; simpl; [reflexivity |].
  rewrite IH.
  destruct (Localization.is_digit c) eqn:Hc; [| reflexivity].
  rewrite (arabic_digit c Hc). reflexivity.
Qed.

Lemma toArabicNumbers_without_digits (text : string) :
  string_forall (fun c => negb (Localization.is_digit c)) text = true ->
  Localization.toArabicNumbers text = text.
Proof.
  induction text as [| c text IH]; simpl; [reflexivity |].
  intros H. apply andb_true_iff in H. destruct H as [Hc Htext].
  apply negb_true_iff in Hc. rewrite Hc, (IH Htext). reflexivity.
Qed.

Lemma toArabicNumbers_no_digit (text : string) :
  string_forall (fun c => negb (Localization.is_digit c))
                (Localization.toArabicNumbers text) = true.
Proof.
  induction text as [| c text IH]; simpl; [reflexivity |].
  destruct (Localization.is_digit c) eqn:Hc.
  - rewrite (arabic_digit c Hc). simpl. rewrite IH.
    assert (Hlow : (nat_of_ascii c <= 57)%nat).
    { unfold Localization.is_digit in Hc. apply andb_true_iff in Hc.
      destruct Hc as [_ Hc]. apply Nat.leb_le in Hc. exact Hc. }
    unfold Localization.is_digit at 1.
    rewrite nat_ascii_embedding by lia.
    replace (nat_of_ascii c + 112 <=? 57)%nat with false
      by (symmetry; apply Nat.leb_gt; lia).
    rewrite andb_false_r. reflexivity.
  - simpl. rewrite Hc, IH. reflexivity.
Qed.

(** X21.  [toArabicNumbers] leaves no digit 0 to 9 in its result; each
    digit of the text becomes the two bytes of its Arabic-Indic form and
    every other byte stays, so the result is longer by the number of
    digits; converting twice is converting once; the conversion of two
    texts joined is the two conversions joined; and a text without digits
    is returned as it is. *)
Theorem arabic_numerals_replace_every_digit (text more : string) :
  string_forall (fun c => negb (Localization.is_digit c))
                (Localization.toArabicNumbers text) = true /\
  String.length (Localization.toArabicNumbers text)
  = (String.length text + string_count Localization.is_digit text)%nat /\
  Localization.toArabicNumbers (Localization.toArabicNumbers text)
  = Localization.toArabicNumbers text /\
  Localization.toArabicNumbers (text ++ more)
  = Localization.toArabicNumbers text ++ Localization.toArabicNumbers more /\
  (string_count Localization.is_digit text = O ->
   Localization.toArabicNumbers text = text).
Proof.
  split; [apply toArabicNumbers_no_digit |].
  split.
  { induction text as [| c text IH]; simpl; [reflexivity |].
    destruct (Localization.is_digit c) eqn:Hc.
    - rewrite (arabic_digit c Hc). simpl. rewrite IH. lia.
    - simpl. rewrite IH. lia. }
  split; [apply toArabicNumbers_without_digits, toArabicNumbers_no_digit |].
  split; [apply toArabicNumbers_app |].
  intros Hcount. apply toArabicNumbers_without_digits.
  induction text as [| c text IH]; simpl in *; [reflexivity |].
  destruct (Localization.is_digit c); simpl in *; [discriminate |].
  apply IH. exact Hcount.
Qed.

Lemma toArabicNumbers_injective_on_ascii (s t : string) :
  string_forall is_ascii7 s = true -> string_forall is_ascii7 t = true ->
  Localization.toArabicNumbers s = Localization.toArabicNumbers t -> s = t.
Proof.
  revert t. induction s as [| c s IH]; intros [| d t] Hs Ht H; simpl in *.
  - reflexivity.
  - destruct (Localization.is_digit d) eqn:Hd;
      [rewrite (arabic_digit d Hd) in H |]; discriminate H.
  - destruct (Localization.is_digit c) eqn:Hc;
      [rewrite (arabic_digit c Hc) in H |]; discriminate H.
  - apply andb_true_iff in Hs. destruct Hs as [Hc7 Hs].
    apply andb_true_iff in Ht. destruct Ht as [Hd7 Ht].
    unfold is_ascii7 in Hc7, Hd7.
    apply Nat.ltb_lt in Hc7. apply Nat.ltb_lt in Hd7.
    destruct (Localization.is_digit c) eqn:Hc;
      destruct (Localization.is_digit d) eqn:Hd;
      rewrite ?(arabic_digit c Hc), ?(arabic_digit d Hd) in H; simpl in H.
    + injection H as H1 H2.
      assert (E : nat_of_ascii c = nat_of_ascii d).
      { apply (f_equal nat_of_ascii) in H1.
        rewrite !nat_ascii_embedding in H1 by lia. lia. }
      apply (f_equal ascii_of_nat) in E. rewrite !ascii_nat_embedding in E.
      subst d. f_equal. auto.
    + injection H as H1 H2. exfalso.
      apply (f_equal nat_of_ascii) in H1.
      rewrite nat_ascii_embedding in H1 by lia. lia.
    + injection H as H1 H2. exfalso.
      apply (f_equal nat_of_ascii) in H1.
      rewrite nat_ascii_embedding in H1 by lia. lia.
    + injection H as H1 H2. subst d. f_equal. auto.
Qed.

Lemma string_of_uint_ascii (d : Decimal.uint) :
  string_forall is_ascii7 (DecimalString.NilEmpty.string_of_uint d) = true.
Proof. induction d; simpl; auto. Qed.

Lemma toString10_ascii (n : Z) :
  string_forall is_ascii7 (JsText.toString10 n) = true.
Proof.
  unfold JsText.toString10, DecimalString.NilZero.string_of_int,
    DecimalString.NilZero.string_of_uint.
  destruct (Z.to_int n) as [d | d]; destruct d; simpl;
    auto using string_of_uint_ascii.
Qed.

(** X22.  Two integers written out in decimal and converted by
    [toArabicNumbers], as the screens show the session counters and seat
    numbers, give the same text only if they are the same number. *)
Theorem arabic_numerals_tell_numbers_apart (a b : Z) :
  Localization.toArabicNumbers (JsText.toString10 a)
  = Localization.toArabicNumbers (JsText.toString10 b)
  <-> a = b.
Proof.
  split; [| intros E; subst; reflexivity].
  intros H. apply toString10_injective.
  apply toArabicNumbers_injective_on_ascii; auto using toString10_ascii.
Qed.

(* ================================================================== *)
(** * Every cycle *)
(* ================================================================== *)

Lemma processScan_counts (card : string) (w : Sys) (log : list Call) :
  wp (Store.processScan card)
     (fun r w' _ =>
        nfc (store w') = nfc (store w) /\
        scanningMode (store w') = scanningMode (store w) /\
        match r with
        | Fulfilled _ =>
            totalScanned (sessionStats (store w'))
            = totalScanned (sessionStats (store w)) + 1 /\
            successfulScans (sessionStats (store w'))
            = successfulScans (sessionStats (store w)) + 1 /\
            failedScans (sessionStats (store w'))
            = failedScans (sessionStats (store w))
        | Rejected _ =>
            successfulScans (sessionStats (store w'))
            = successfulScans (sessionStats (store w)) /\
            exists n,
              (n = 1 \/ n = 2) /\
              totalScanned (sessionStats (store w'))
              = totalScanned (sessionStats (store w)) + n /\
              failedScans (sessionStats (store w'))
              = failedScans (sessionStats (store w)) + n
        end) w log.
Proof.
  unfold Store.processScan, Store.updatePilgrimStatus,
    PocketBaseService.getPilgrimByNfcId, PocketBaseService.updatePilgrimStatus.
  wp_cases.
  all: repeat match goal with
              | |- context [match ?x with _ => _ end] => destruct x; simpl
              end.
  all: repeat split; try reflexivity; try lia.
  all: try (exists 1; repeat split; auto; lia).
  all: try (exists 2; repeat split; auto; lia).
Qed.

Local Arguments Store.processScan : simpl never.

(** X28.  Whatever the reader and the Record Store reply, the store's
    [startScanning] resolves and never rejects, ends with isScanning false
    and the mode as requested, and records the adapter's result as last
    scan result.  It counts the cycle at least once and at most three
    times: totalScanned goes up by 1, 2 or 3, by as much as successfulScans
    and failedScans together; and a cycle that adds to successfulScans adds
    one to it and nothing to failedScans. *)
Theorem every_cycle_is_counted
    (env : Oracle) (w : Sys) (log : list Call) (requested : Status) :
  let o := run env (Store.startScanning requested) w log in
  let before := sessionStats (store w) in
  let after := sessionStats (store (final o)) in
  result o = Fulfilled tt /\
  nfc_isScanning (nfc (store (final o))) = false /\
  scanningMode (store (final o)) = mode requested /\
  nfc_lastScanResult (nfc (store (final o)))
  = match result (run env NFCService.startScanning (scanning requested w)
                      log) with
    | Fulfilled r => Some r
    | Rejected _ => None
    end /\
  totalScanned before + 1 <= totalScanned after <= totalScanned before + 3 /\
  totalScanned after - totalScanned before
  = (successfulScans after - successfulScans before)
    + (failedScans after - failedScans before) /\
  (successfulScans after = successfulScans before
   \/ (successfulScans after = successfulScans before + 1
       /\ failedScans after = failedScans before)).
Proof.
  cbv zeta.
  unfold Store.startScanning.
  rewrite run_bind. simpl (run env (Store.set _) _ _).
  cbn [result final calls].
  rewrite run_try_catch, run_bind.
  change (set_store (set_error None _) w) with (scanning requested w).
  pose proof (run_outcomes well_formed nothing env NFCService.startScanning
                scan_resolves_well_formed (scanning requested w) log) as Hwf.
  pose proof (run_preserves
                (fun w' => store w' = store (scanning requested w)) env
                NFCService.startScanning
                (startScanning_frame
                   (fun a => a = store (scanning requested w)))
                (scanning requested w) log eq_refl) as Hframe.
  destruct (run env NFCService.startScanning (scanning requested w) log)
    as [[r | e] fin made]; [| destruct Hwf].
  simpl in Hwf, Hframe. cbn [result final calls].
  unfold well_formed in Hwf.
  destruct r as [ok card err stamp]. simpl in Hwf.
  destruct ok.
  - destruct Hwf as [[c [Hc Hne]] Herr]. subst card err.
    apply String.eqb_neq in Hne.
    simpl. rewrite Hne.
    match goal with
    | |- context [run env (Store.processScan c) ?st ?l] =>
        pose proof (wp_run env (Store.processScan c) _ st l
                      (processScan_counts c st l)) as Hp;
        destruct (run env (Store.processScan c) st l) as [[[] | e] w2 l2]
    end; simpl in Hp |- *; rewrite Hframe in Hp; simpl in Hp.
    + destruct Hp as (Hnfc & Hmode & Ht & Hs & Hf).
      rewrite Hnfc, Hmode. simpl. repeat split; first [reflexivity | lia].
    + destruct Hp as (Hnfc & Hmode & Hs & n & Hn & Ht & Hf).
      rewrite Hnfc, Hmode. simpl. repeat split; first [reflexivity | lia].
  - destruct Hwf as [Hcard [kind Hkind]]. subst card err.
    simpl. rewrite Hframe. simpl.
    destruct kind; simpl; repeat split; first [reflexivity | lia].
Qed.

(* ================================================================== *)
(** * Instances *)
(* ================================================================== *)

Lemma reads_card_working (s : Status) :
  reads_card (answering (working s)) some_tag "A1".
Proof.
  split; [exists Ndef; intros history techRequest timeoutMs; reflexivity |].
  repeat split. discriminate.
Qed.

Lemma reads_card_store_unreachable : reads_card store_unreachable some_tag "A1".
Proof.
  split; [exists Ndef; intros history techRequest timeoutMs; reflexivity |].
  repeat split. discriminate.
Qed.


Lemma persist_success_counted_once_witness :
  let o := run (answering (working offboard)) (Store.startScanning onboard)
               launched [] in
  result o = Fulfilled tt /\
  sessionStats (store (final o))
  = count_success onboard (sessionStats (store launched)) /\
  selectedPilgrim (store (final o)) = Some (pilgrim_p1 offboard) /\
  app_error (store (final o)) = None.
Proof.
  apply (persist_success_counted_once (answering (working offboard)) launched
           [] onboard some_tag "A1" (pilgrim_p1 offboard)
           (pilgrim_p1 onboard)).
  - repeat split.
  - exact (reads_card_working offboard).
  - intros history. reflexivity.
  - discriminate.
  - intros history. reflexivity.
Defined.

Lemma already_counted_twice_witness :
  let o := run (answering (working onboard)) (Store.startScanning onboard)
               launched [] in
  result o = Fulfilled tt /\
  failedScans (sessionStats (store (final o))) = 0 + 2 /\
  totalScanned (sessionStats (store (final o))) = 0 + 2.
Proof.
  apply (already_counted_twice (answering (working onboard)) launched []
           onboard some_tag "A1" (pilgrim_p1 onboard)).
  - repeat split.
  - exact (reads_card_working onboard).
  - intros history. reflexivity.
  - reflexivity.
Defined.

Lemma persist_failure_counted_three_times_witness :
  let o := run store_unreachable (Store.startScanning onboard) launched [] in
  result o = Fulfilled tt /\
  failedScans (sessionStats (store (final o))) = 0 + 3 /\
  totalScanned (sessionStats (store (final o))) = 0 + 3 /\
  app_error (store (final o))
  = message (PocketBaseService.handleError network_down).
Proof.
  apply (persist_failure_counted_three_times store_unreachable launched []
           onboard some_tag "A1" (pilgrim_p1 offboard) network_down).
  - repeat split.
  - exact reads_card_store_unreachable.
  - intros history. reflexivity.
  - discriminate.
  - intros history. reflexivity.
Defined.

Lemma idle_scan_is_persisted_witness :
  let o := run (answering (working offboard)) (Store.processScan "A1")
               launched [] in
  calls o = [lookup_call "A1"; Pb_update "p1" idle] /\
  offboardCount (sessionStats (store (final o))) = 0 + 1.
Proof.
  cbv zeta.
  destruct (idle_scan_is_persisted (answering (working offboard)) launched []
              "A1" (pilgrim_p1 offboard) eq_refl eq_refl) as [Hcalls Hcounted].
  destruct (Hcounted (pilgrim_p1 offboard) eq_refl) as (_ & Hoffboard & _).
  exact (conj Hcalls Hoffboard).
Defined.
